(** * mc config host: a shallow embedding of cmd/config-host-main.go

    The Go source manages the [Hosts] table of the mc configuration file
    through three verbs (add, remove, list).  Go strings are byte
    sequences, so they are modelled as [string] (a list of [ascii], one
    per byte); the Go map is a [gmap string _]; process exit ([fatalIf],
    [cli.ShowCommandHelpAndExit]) is an explicit outcome of a small
    state-and-exit monad over the world (configuration file + console). *)

From Stdlib Require Import ZArith NArith String Ascii List Lia Sorted Permutation.
From stdpp Require Import gmap strings list fin_maps.

Local Open Scope N_scope.

(** ** unicode/utf8: the part of the decoder that fmt and strings rely on *)

Module utf8.

Definition RuneError : N := 65533.   (* U+FFFD *)
Definition RuneSelf : N := 128.
Definition UTFMax : nat := 4.
Definition locb : N := 128.          (* 0b10000000 *)
Definition hicb : N := 191.          (* 0b10111111 *)

(** Entry of the table [first]: [AS] is an ASCII byte, [XX] an invalid
    first byte, [Seq sz lo hi] the first byte of a [sz]-byte sequence
    whose second byte must lie in the accept range [lo..hi]. *)
Inductive firstInfo : Type :=
| AS
| XX
| Seq (sz : nat) (lo hi : N).

Definition first (c : N) : firstInfo :=
  if c <? 128 then AS                      (* 0x00-0x7F *)
  else if c <? 194 then XX                 (* 0x80-0xC1 *)
  else if c <? 224 then Seq 2 locb hicb    (* 0xC2-0xDF: s1 *)
  else if c =? 224 then Seq 3 160 hicb     (* 0xE0: s2 *)
  else if c <? 237 then Seq 3 locb hicb    (* 0xE1-0xEC: s3 *)
  else if c =? 237 then Seq 3 locb 159     (* 0xED: s4 *)
  else if c <? 240 then Seq 3 locb hicb    (* 0xEE-0xEF: s3 *)
  else if c =? 240 then Seq 4 144 hicb     (* 0xF0: s5 *)
  else if c <? 244 then Seq 4 locb hicb    (* 0xF1-0xF3: s6 *)
  else if c =? 244 then Seq 4 locb 143     (* 0xF4: s7 *)
  else XX.                                 (* 0xF5-0xFF *)

Definition cont (c : N) : bool := (locb <=? c) && (c <=? hicb).

(** [DecodeRuneInString s]: the first rune of [s] and its width in bytes;
    [(RuneError, 0)] on the empty string, [(RuneError, 1)] on an invalid
    or incomplete encoding. *)
Definition DecodeRuneInString (s : string) : N * nat :=
  match s with
  | EmptyString => (RuneError, 0%nat)
  | String c0 t =>
    let s0 := N_of_ascii c0 in
    match first s0 with
    | AS => (s0, 1%nat)
    | XX => (RuneError, 1%nat)
    | Seq sz lo hi =>
      if (String.length s <? sz)%nat then (RuneError, 1%nat) else
      match t with
      | EmptyString => (RuneError, 1%nat)
      | String c1 t1 =>
        let s1 := N_of_ascii c1 in
        if (s1 <? lo) || (hi <? s1) then (RuneError, 1%nat)
        else if (sz <=? 2)%nat then
          (N.lor (N.shiftl (N.land s0 31) 6) (N.land s1 63), 2%nat)
        else
        match t1 with
        | EmptyString => (RuneError, 1%nat)
        | String c2 t2 =>
          let s2 := N_of_ascii c2 in
          if negb (cont s2) then (RuneError, 1%nat)
          else if (sz <=? 3)%nat then
            (N.lor (N.lor (N.shiftl (N.land s0 15) 12)
                          (N.shiftl (N.land s1 63) 6))
                   (N.land s2 63), 3%nat)
          else
          match t2 with
          | EmptyString => (RuneError, 1%nat)
          | String c3 _ =>
            let s3 := N_of_ascii c3 in
            if negb (cont s3) then (RuneError, 1%nat)
            else
              (N.lor (N.lor (N.lor (N.shiftl (N.land s0 7) 18)
                                   (N.shiftl (N.land s1 63) 12))
                            (N.shiftl (N.land s2 63) 6))
                     (N.land s3 63), 4%nat)
          end
        end
      end
    end
  end.

(** [for i, r := range s]: the runes of [s] in order, each with its width.
    [skip] counts the bytes still belonging to the rune decoded last. *)
Fixpoint rangeFrom (skip : nat) (s : string) : list (N * nat) :=
  match s with
  | EmptyString => []
  | String _ t =>
    match skip with
    | S k => rangeFrom k t
    | O => let d := DecodeRuneInString s in d :: rangeFrom (snd d - 1) t
    end
  end.

Definition runes (s : string) : list (N * nat) := rangeFrom 0 s.

Definition RuneCountInString (s : string) : nat := length (runes s).

(** [RuneStart b]: [b] is not a continuation byte. *)
Definition RuneStart (b : N) : bool := negb (N.land b 192 =? 128).

Definition byteAt (s : string) (i : Z) : N :=
  match String.get (Z.to_nat i) s with
  | Some c => N_of_ascii c
  | None => 0
  end.

(** Go's slice expression [s[a:b]]. *)
Definition slice (s : string) (a b : Z) : string :=
  substring (Z.to_nat a) (Z.to_nat (b - a)) s.

(** The backwards scan of [DecodeLastRuneInString]:
    [for start--; start >= lim; start-- { if RuneStart(s[start]) { break } }],
    entered after the decrement; at most [UTFMax] iterations. *)
Fixpoint scanBack (n : nat) (s : string) (lim start : Z) : Z :=
  match n with
  | O => start
  | S n' =>
    if (start <? lim)%Z then start
    else if RuneStart (byteAt s start) then start
    else scanBack n' s lim (start - 1)
  end.

Definition DecodeLastRuneInString (s : string) : N * nat :=
  let e := Z.of_nat (String.length s) in
  if (e =? 0)%Z then (RuneError, 0%nat) else
  let start := (e - 1)%Z in
  let r := byteAt s start in
  if r <? RuneSelf then (r, 1%nat) else
  let lim := Z.max 0 (e - Z.of_nat UTFMax) in
  let start := scanBack UTFMax s lim (start - 1) in
  let start := if (start <? 0)%Z then 0%Z else start in
  let d := DecodeRuneInString (slice s start e) in
  if negb (start + Z.of_nat (snd d) =? e)%Z then (RuneError, 1%nat)
  else d.

End utf8.

(** ** unicode.IsSpace *)

Module unicode.

Definition MaxLatin1 : N := 255.

(** Latin-1 is decided by the switch in the source of [IsSpace]; above it
    the [White_Space] range table is consulted. *)
Definition IsSpace (r : N) : bool :=
  if r <=? MaxLatin1 then
    (r =? 9) || (r =? 10) || (r =? 11) || (r =? 12) || (r =? 13)
    || (r =? 32) || (r =? 133) || (r =? 160)
  else
    (r =? 5760)                          (* U+1680 *)
    || ((8192 <=? r) && (r <=? 8202))    (* U+2000-U+200A *)
    || (r =? 8232) || (r =? 8233)        (* U+2028, U+2029 *)
    || (r =? 8239) || (r =? 8287)        (* U+202F, U+205F *)
    || (r =? 12288).                     (* U+3000 *)

End unicode.

(** ** strings.TrimSpace *)

Module strings.

Section Funcs.
Variable f : N -> bool.
Variable truth : bool.

(** [indexFunc]: byte index of the first rune [r] with [f r = truth],
    or -1. *)
Fixpoint indexFunc_loop (start : nat) (rs : list (N * nat)) : Z :=
  match rs with
  | [] => (-1)%Z
  | (r, wid) :: rs' =>
    if Bool.eqb (f r) truth then Z.of_nat start
    else indexFunc_loop (start + wid)%nat rs'
  end.

Definition indexFunc (s : string) : Z := indexFunc_loop 0 (utf8.runes s).

(** [lastIndexFunc]: [for i := len(s); i > 0; ] decoding the last rune
    of [s[0:i]] each time.  Every iteration lowers [i], so [len(s)]
    iterations are enough. *)
Fixpoint lastIndexFunc_loop (fuel : nat) (s : string) (i : Z) : Z :=
  match fuel with
  | O => (-1)%Z
  | S fuel' =>
    if (i <=? 0)%Z then (-1)%Z else
    let d := utf8.DecodeLastRuneInString (utf8.slice s 0 i) in
    let i := (i - Z.of_nat (snd d))%Z in
    if Bool.eqb (f (fst d)) truth then i
    else lastIndexFunc_loop fuel' s i
  end.

Definition lastIndexFunc (s : string) : Z :=
  lastIndexFunc_loop (String.length s) s (Z.of_nat (String.length s)).
End Funcs.

Definition TrimLeftFunc (s : string) (f : N -> bool) : string :=
  let i := indexFunc f false s in
  if (i =? -1)%Z then EmptyString
  else utf8.slice s i (Z.of_nat (String.length s)).

Definition TrimRightFunc (s : string) (f : N -> bool) : string :=
  let i := lastIndexFunc f false s in
  let i :=
    if (0 <=? i)%Z && (utf8.RuneSelf <=? utf8.byteAt s i) then
      (i + Z.of_nat (snd (utf8.DecodeRuneInString
                            (utf8.slice s i (Z.of_nat (String.length s))))))%Z
    else (i + 1)%Z in
  utf8.slice s 0 i.

Definition TrimFunc (s : string) (f : N -> bool) : string :=
  TrimRightFunc (TrimLeftFunc s f) f.

Definition TrimSpace (s : string) : string := TrimFunc s unicode.IsSpace.

End strings.

(** ** fmt: the verb %s with the flag '-', a width and a precision *)

Module fmt.

Fixpoint spaces (n : nat) : string :=
  match n with
  | O => EmptyString
  | S n' => String " "%char (spaces n')
  end.

(** [truncate]: keep at most [prec] runes. *)
Definition truncate (prec : option nat) (s : string) : string :=
  match prec with
  | Some p =>
    if (p <? utf8.RuneCountInString s)%nat
    then substring 0 (list_sum (map snd (take p (utf8.runes s)))) s
    else s
  | None => s
  end.

(** [padString]: the width counts runes, not bytes; with the flag '-'
    the padding goes to the right of the text. *)
Definition padString (minus : bool) (wid : option nat) (s : string) : string :=
  match wid with
  | None => s
  | Some w =>
    let width := (w - utf8.RuneCountInString s)%nat in
    if minus then s +:+ spaces width else spaces width +:+ s
  end.

Definition fmtS (minus : bool) (wid prec : option nat) (s : string) : string :=
  padString minus wid (truncate prec s).

End fmt.

Local Close Scope N_scope.

(** ** Data model *)

(** One entry of the [Hosts] table.  The type is declared outside
    config-host-main.go; its four string fields are the ones
    [mainConfigHost] fills in and [listHosts] reads. *)
Module hostConfigV8.
Record t : Type := mk {
  URL : string;
  AccessKey : string;
  SecretKey : string;
  API : string
}.
End hostConfigV8.

Record configV8 : Type := mkConfigV8 {
  Version : string;
  Hosts : gmap string hostConfigV8.t
}.

(** [probe.Error]: the cause and the values recorded by [Trace]. *)
Inductive cause : Type :=
| InvalidArgument
| Dummy
| ConfigIO.

Record probeError : Type := mkError {
  errCause : cause;
  callInfo : list string
}.

(** Modelled from the spec: [errInvalidArgument] and [errDummy] are not
    in config-host-main.go.  They make the argument and validation errors
    of section 7; the error they return is never nil. *)
Definition errInvalidArgument : probeError := mkError InvalidArgument [].
Definition errDummy : probeError := mkError Dummy [].
Definition Trace (e : probeError) (fields : list string) : probeError :=
  mkError (errCause e) (callInfo e ++ fields).

(** [cli.Args], of the package github.com/minio/cli, is a slice of
    strings. *)
Module Args.
Definition Get (a : list string) (n : nat) : string :=
  match a !! n with
  | Some s => s
  | None => EmptyString
  end.
Definition First (a : list string) : string := Get a 0.
Definition Tail (a : list string) : list string :=
  if (2 <=? length a)%nat then drop 1 a else [].
Definition Present (a : list string) : bool := negb (length a =? 0)%nat.
End Args.

(** ** encoding/json: objects whose values are strings *)

Module json.










End json.

(** Modelled from the spec: [isValidAPI] is not in config-host-main.go.
    By section 4.1 the string must be one of the fixed set {S3v4, S3v2}. *)
Definition isValidAPI (api : string) : bool :=
  String.eqb api "S3v4" || String.eqb api "S3v2".

(** What config-host-main.go takes from the rest of the program: the
    four validators of section 4.1 whose syntax the file does not fix,
    the console colouring, two constants used in messages, and the order
    in which the [k]-th [range] loop of [listHosts] visits the map. *)
Class Externals : Type := {
  isValidAlias : string -> bool;
  isValidHostURL : string -> bool;
  isValidAccessKey : string -> bool;
  isValidSecretKey : string -> bool;
  Colorize : string -> string -> string;
  globalMCConfigVersion : string;
  mustGetMcConfigPath : string;
  rangeHosts : nat -> gmap string hostConfigV8.t -> list (string * hostConfigV8.t)
}.

(** Go visits every entry of a map exactly once, in an order it does not
    specify. *)
Definition rangeLawful `{Externals} : Prop :=
  forall k (m : gmap string hostConfigV8.t), Permutation (rangeHosts k m) (map_to_list m).

(** ** Host messages and their two renderings *)

Module hostMessage.
Record t : Type := mk {
  op : string;
  Status : string;
  Alias : string;
  URL : string;
  AccessKey : string;
  SecretKey : string;
  API : string
}.

Section Methods.
Context `{Externals}.



Definition String (h : t) : string :=
  if String.eqb (op h) "list" then
    let message := Colorize "Alias" (fmt.fmtS false None None (Alias h) +:+ ": ") in
    let message := message +:+ Colorize "URL" (fmt.fmtS true (Some 30) (Some 30) (URL h)) in
    let message :=
      if negb (String.eqb (AccessKey h) EmptyString)
         || negb (String.eqb (SecretKey h) EmptyString)
      then
        let message := message +:+
          Colorize "AccessKey" ("  " +:+ fmt.fmtS true (Some 20) (Some 20) (AccessKey h)) in
        let message := message +:+
          Colorize "SecretKey" ("  " +:+ fmt.fmtS true (Some 40) (Some 40) (SecretKey h)) in
        message +:+ Colorize "API" ("  " +:+ fmt.fmtS false None (Some 20) (API h))
      else message in
    message
  else if String.eqb (op h) "remove" then
    Colorize "HostMessage" ("Removed ‘" +:+ Alias h +:+ "’ successfully.")
  else if String.eqb (op h) "add" then
    Colorize "HostMessage" ("Added ‘" +:+ Alias h +:+ "’ successfully.")
  else EmptyString.
End Methods.
End hostMessage.

(** ** The world, and the monad of commands that may exit *)

(** What a command can see and change: the configuration document on
    disk, whether the disk accepts a write, and the messages handed to
    [printMsg] so far. *)
Record World : Type := mkWorld {
  config : option configV8;
  writable : bool;
  console : list hostMessage.t
}.

Inductive exitReason : Type :=
| Fatal (e : probeError) (msg : string)
| Help (command : string).

Inductive Outcome (A : Type) : Type :=
| Return (a : A) (w : World)
| Exit (code : Z) (r : exitReason) (w : World).
Arguments Return {A} a w.
Arguments Exit {A} code r w.

Definition M (A : Type) : Type := World -> Outcome A.

Definition ret {A} (a : A) : M A := fun w => Return a w.

Definition bind {A B} (m : M A) (k : A -> M B) : M B :=
  fun w =>
    match m w with
    | Return a w' => k a w'
    | Exit code r w' => Exit code r w'
    end.

Notation "x <- m ;; k" := (bind m (fun x => k))
  (at level 90, m at level 89, right associativity).
Notation "m ;;; k" := (bind m (fun _ => k))
  (at level 90, right associativity).

Definition when (b : bool) (m : M unit) : M unit := if b then m else ret tt.

Definition world (o : Outcome unit) : World :=
  match o with
  | Return _ w => w
  | Exit _ _ w => w
  end.

(** Modelled from the spec: [fatalIf] is not in config-host-main.go.
    Every error is terminal (section 7): a non-nil error is reported with
    the message and the process exits non-zero; a nil error lets the
    caller go on. *)
Definition fatalIf (err : option probeError) (msg : string) : M unit :=
  fun w =>
    match err with
    | None => Return tt w
    | Some e => Exit 1 (Fatal e msg) w
    end.

(** [cli.ShowCommandHelpAndExit(ctx, command, code)]. *)
Definition ShowCommandHelpAndExit (command : string) (code : Z) : M unit :=
  fun w => Exit code (Help command) w.

(** Modelled from the spec: [loadMcConfig] is not in
    config-host-main.go.  The Config Store Accessor of section 2 loads
    the whole document into memory, or reports an error (Go's pair of a
    value and an error, of which exactly one is meaningful). *)
Definition loadMcConfig : M (configV8 + probeError) :=
  fun w =>
    match config w with
    | Some c => Return (inl c) w
    | None => Return (inr (mkError ConfigIO [])) w
    end.

(** Modelled from the spec: [saveMcConfig] is not in
    config-host-main.go.  The document is rewritten in full, or an error
    is reported and the file is left as it was. *)
Definition saveMcConfig (c : configV8) : M (option probeError) :=
  fun w =>
    if writable w
    then Return None (mkWorld (Some c) (writable w) (console w))
    else Return (Some (mkError ConfigIO [])) w.

(** Modelled from the spec: [printMsg] is not in config-host-main.go.
    It hands the message to the presentation layer, which renders it as
    text or as JSON; the console keeps the messages in order. *)
Definition printMsg (m : hostMessage.t) : M unit :=
  fun w => Return tt (mkWorld (config w) (writable w) (console w ++ [m])).


(** ** sort.Sort *)

Module sort.
Section Sort.
Context {A : Type} (Less : A -> A -> bool).

(** The inner loop of [insertionSort]:
    [for j := i; j > a && data.Less(j, j-1); j-- { data.Swap(j, j-1) }].
    [p] is the part of the slice before [x], nearest element first. *)
Fixpoint sink (x : A) (p : list A) : list A :=
  match p with
  | [] => [x]
  | y :: p' => if Less x y then y :: sink x p' else x :: p
  end.

(** [sort.Sort] orders the slice by [Less] alone.  On short slices it
    runs [insertionSort]; that is the algorithm modelled here.  When no
    two elements compare equal every correct algorithm gives the same
    slice (see [Sort_unique] below). *)
Definition Sort (data : list A) : list A :=
  rev (fold_left (fun p x => sink x p) data []).
End Sort.
End sort.

(** ** The commands of config-host-main.go *)

Section ConfigHost.
Context `{Externals}.

(** [checkConfigHostAddSyntax] - verifies input arguments to
    'config host add'. *)
Definition checkConfigHostAddSyntax (args : list string) : M unit :=
  let tailArgs := Args.Tail args in
  let tailsArgsNr := length tailArgs in
  when ((tailsArgsNr <? 4)%nat || (5 <? tailsArgsNr)%nat)
    (fatalIf (Some (Trace errInvalidArgument (Args.Tail args)))
       "Incorrect number of arguments for host add command.") ;;;
  let alias := Args.Get tailArgs 0 in
  let url := Args.Get tailArgs 1 in
  let accessKey := Args.Get tailArgs 2 in
  let secretKey := Args.Get tailArgs 3 in
  let api := Args.Get tailArgs 4 in
  when (negb (isValidAlias alias))
    (fatalIf (Some (Trace errDummy [alias]))
       ("Invalid alias ‘" +:+ alias +:+ "’.")) ;;;
  when (negb (isValidHostURL url))
    (fatalIf (Some (Trace errDummy [url]))
       ("Invalid URL ‘" +:+ url +:+ "’.")) ;;;
  when (negb (isValidAccessKey accessKey))
    (fatalIf (Some (Trace errInvalidArgument [accessKey]))
       ("Invalid access key ‘" +:+ accessKey +:+ "’.")) ;;;
  when (negb (isValidSecretKey secretKey))
    (fatalIf (Some (Trace errInvalidArgument [secretKey]))
       ("Invalid secret key ‘" +:+ secretKey +:+ "’.")) ;;;
  when (negb (String.eqb api EmptyString) && negb (isValidAPI api))
    (fatalIf (Some (Trace errInvalidArgument [api]))
       "Unrecognized API signature. Valid options are ‘[S3v4, S3v2]’.").

(** [checkConfigHostRemoveSyntax] - verifies input arguments to
    'config host remove'. *)
Definition checkConfigHostRemoveSyntax (args : list string) : M unit :=
  let tailArgs := Args.Tail args in
  when (negb (length (Args.Tail args) =? 1)%nat)
    (fatalIf (Some (Trace errInvalidArgument tailArgs))
       "Incorrect number of arguments for remove host command.") ;;;
  when (negb (isValidAlias (Args.Get tailArgs 0)))
    (fatalIf (Some (Trace errDummy [Args.Get tailArgs 0]))
       ("Invalid alias ‘" +:+ Args.Get tailArgs 0 +:+ "’.")).

(** Validate command-line input args. *)
Definition checkConfigHostSyntax (args : list string) : M unit :=
  when (negb (Args.Present args)) (ShowCommandHelpAndExit "host" 1) ;;;
  let verb := strings.TrimSpace (Args.First args) in
  if String.eqb verb "add" then checkConfigHostAddSyntax args
  else if String.eqb verb "remove" then checkConfigHostRemoveSyntax args
  else if String.eqb verb "list" then ret tt
  else ShowCommandHelpAndExit "host" 1.

(** [addHost] - add a host config. *)
Definition addHost (alias : string) (hostCfgV8 : hostConfigV8.t) : M unit :=
  r <- loadMcConfig ;;
  match r with
  | inr err =>
    fatalIf (Some (Trace err [globalMCConfigVersion]))
      ("Unable to load config ‘" +:+ mustGetMcConfigPath +:+ "’.")
  | inl mcCfgV8 =>
    (* Add new host. *)
    let mcCfgV8 := mkConfigV8 (Version mcCfgV8) (<[alias := hostCfgV8]> (Hosts mcCfgV8)) in
    err <- saveMcConfig mcCfgV8 ;;
    fatalIf (option_map (fun e => Trace e [alias]) err)
      ("Unable to update hosts in config version ‘" +:+ mustGetMcConfigPath +:+ "’.") ;;;
    printMsg (hostMessage.mk "add" EmptyString alias
                (hostConfigV8.URL hostCfgV8) (hostConfigV8.AccessKey hostCfgV8)
                (hostConfigV8.SecretKey hostCfgV8) (hostConfigV8.API hostCfgV8))
  end.

(** [removeHost] - removes a host. *)
Definition removeHost (alias : string) : M unit :=
  r <- loadMcConfig ;;
  match r with
  | inr err =>
    fatalIf (Some (Trace err [globalMCConfigVersion]))
      ("Unable to load config version ‘" +:+ globalMCConfigVersion +:+ "’.")
  | inl conf =>
    (* Remove host. *)
    let conf := mkConfigV8 (Version conf) (delete alias (Hosts conf)) in
    err <- saveMcConfig conf ;;
    fatalIf (option_map (fun e => Trace e [alias]) err)
      ("Unable to save deleted hosts in config version ‘"
         +:+ globalMCConfigVersion +:+ "’.") ;;;
    printMsg (hostMessage.mk "remove" EmptyString alias
                EmptyString EmptyString EmptyString EmptyString)
  end.

(** [byAlias.Less] on the elements themselves. *)
Definition byAlias_Less (a b : hostMessage.t) : bool :=
  String.ltb (hostMessage.Alias a) (hostMessage.Alias b).

(** First loop of [listHosts]: the longest key, in bytes. *)
Definition maxAliasOf (keys : list string) : nat :=
  fold_left (fun maxAlias k =>
               if (maxAlias <? String.length k)%nat then String.length k else maxAlias)
            keys 0%nat.

(** Second loop of [listHosts]: one message per entry, in visiting order. *)
Definition hostsOf (entries : list (string * hostConfigV8.t)) : list hostMessage.t :=
  map (fun kv =>
         hostMessage.mk "list" EmptyString (fst kv)
           (hostConfigV8.URL (snd kv)) (hostConfigV8.AccessKey (snd kv))
           (hostConfigV8.SecretKey (snd kv)) (hostConfigV8.API (snd kv)))
      entries.

(** Body of the display loop: format for alignment, then print. *)
Definition padAlias (maxAlias : nat) (host : hostMessage.t) : hostMessage.t :=
  hostMessage.mk (hostMessage.op host) (hostMessage.Status host)
    (fmt.fmtS true (Some maxAlias) (Some maxAlias) (hostMessage.Alias host))
    (hostMessage.URL host) (hostMessage.AccessKey host)
    (hostMessage.SecretKey host) (hostMessage.API host).

Fixpoint displayHosts (maxAlias : nat) (hosts : list hostMessage.t) : M unit :=
  match hosts with
  | [] => ret tt
  | host :: rest => printMsg (padAlias maxAlias host) ;;; displayHosts maxAlias rest
  end.

(** [listHosts] - list all host URLs. *)
Definition listHosts : M unit :=
  r <- loadMcConfig ;;
  match r with
  | inr err =>
    fatalIf (Some (Trace err [globalMCConfigVersion]))
      ("Unable to load config version ‘" +:+ globalMCConfigVersion +:+ "’.")
  | inl conf =>
    let maxAlias := maxAliasOf (map fst (rangeHosts 0 (Hosts conf))) in
    let hosts := hostsOf (rangeHosts 1 (Hosts conf)) in
    (* Sort hosts by alias names lexically. *)
    let hosts := sort.Sort byAlias_Less hosts in
    (* Display all the hosts. *)
    displayHosts maxAlias hosts
  end.

(** [mainConfigHost].  The calls [setGlobalsFromContext] and
    [console.SetColor] only set the output mode and the colour theme; here
    they are part of what [Colorize] stands for. *)
Definition mainConfigHost (ctxArgs : list string) : M unit :=
  (* check 'config host' cli arguments. *)
  checkConfigHostSyntax ctxArgs ;;;
  let cmd := Args.First ctxArgs in
  let args := Args.Tail ctxArgs in
  (* Switch case through commands. *)
  let verb := strings.TrimSpace cmd in
  if String.eqb verb "add" then
    let alias := Args.Get args 0 in
    let url := Args.Get args 1 in
    let accessKey := Args.Get args 2 in
    let secretKey := Args.Get args 3 in
    let api := Args.Get args 4 in
    let api := if String.eqb api EmptyString then "S3v4"%string else api in
    let hostCfg := hostConfigV8.mk url accessKey secretKey api in
    addHost alias hostCfg   (* Add a host with specified credentials. *)
  else if String.eqb verb "remove" then
    let alias := Args.Get args 0 in
    removeHost alias        (* Remove a host. *)
  else if String.eqb verb "list" then
    listHosts               (* List all configured hosts. *)
  else ret tt.
End ConfigHost.

(** ** [byAlias] as a [sort.Interface] *)

(** The three methods of [byAlias], by index.  Indexing a slice out of
    range panics: the method has no result then.  Package sort never
    passes a negative index, so the indices are natural numbers. *)
Module byAlias.

Definition Len (d : list hostMessage.t) : nat := length d.

(** [d[i], d[j] = d[j], d[i]]: both operands are read, then [d[i]] and
    [d[j]] are assigned in this order. *)
Definition Swap (d : list hostMessage.t) (i j : nat) : option (list hostMessage.t) :=
  match d !! i, d !! j with
  | Some di, Some dj => Some (<[j := di]> (<[i := dj]> d))
  | _, _ => None
  end.

Definition Less (d : list hostMessage.t) (i j : nat) : option bool :=
  match d !! i, d !! j with
  | Some di, Some dj => Some (String.ltb (hostMessage.Alias di) (hostMessage.Alias dj))
  | _, _ => None
  end.

End byAlias.

(** [insertionSort(data, a, b)] of package sort, run through the methods
    of [byAlias]:
    [for i := a + 1; i < b; i++ {
       for j := i; j > a && data.Less(j, j-1); j-- { data.Swap(j, j-1) } }]. *)
Fixpoint insertionSort_inner (a j : nat) (data : list hostMessage.t)
    : option (list hostMessage.t) :=
  match j with
  | O => Some data
  | S j' =>
    if (a <? j)%nat then
      match byAlias.Less data j j' with
      | None => None
      | Some false => Some data
      | Some true =>
        match byAlias.Swap data j j' with
        | None => None
        | Some data' => insertionSort_inner a j' data'
        end
      end
    else Some data
  end.

(** The outer loop with [n] iterations left, the next one at index [i]. *)
Fixpoint insertionSort_outer (n a i : nat) (data : list hostMessage.t)
    : option (list hostMessage.t) :=
  match n with
  | O => Some data
  | S n' =>
    match insertionSort_inner a i data with
    | None => None
    | Some data' => insertionSort_outer n' a (S i) data'
    end
  end.

Definition insertionSort (data : list hostMessage.t) (a b : nat)
    : option (list hostMessage.t) :=
  insertionSort_outer (b - (a + 1)) a (a + 1) data.

(** ** A concrete environment, to run the commands *)

Module Sample.

Definition isAlnum (c : ascii) : bool :=
  let n := N_of_ascii c in
  ((48 <=? n) && (n <=? 57) || (65 <=? n) && (n <=? 90) || (97 <=? n) && (n <=? 122))%N.

Fixpoint allChars (p : ascii -> bool) (s : string) : bool :=
  match s with
  | EmptyString => true
  | String.String c t => p c && allChars p t
  end.

Definition validAlias (s : string) : bool :=
  negb (String.eqb s EmptyString)
  && allChars (fun c => isAlnum c || Ascii.eqb c "-" || Ascii.eqb c "_") s.

Definition validURL (s : string) : bool :=
  String.prefix "http://" s || String.prefix "https://" s.

Definition validKey (lo hi : nat) (s : string) : bool :=
  (lo <=? String.length s)%nat && (String.length s <=? hi)%nat && allChars isAlnum s.

(** Output that is not a terminal is left uncoloured; the map is visited
    in the order of [map_to_list]. *)
Definition env : Externals := {|
  isValidAlias := validAlias;
  isValidHostURL := validURL;
  isValidAccessKey := validKey 5 20;
  isValidSecretKey := validKey 8 40;
  Colorize := fun _ s => s;
  globalMCConfigVersion := "8";
  mustGetMcConfigPath := "/home/user/.mc/config.json";
  rangeHosts := fun _ m => map_to_list m
|}.

(** The same environment with both loops visiting the map backwards. *)
Definition envRev : Externals := {|
  isValidAlias := validAlias;
  isValidHostURL := validURL;
  isValidAccessKey := validKey 5 20;
  isValidSecretKey := validKey 8 40;
  Colorize := fun _ s => s;
  globalMCConfigVersion := "8";
  mustGetMcConfigPath := "/home/user/.mc/config.json";
  rangeHosts := fun _ m => rev (map_to_list m)
|}.

Definition emptyWorld : World := mkWorld (Some (mkConfigV8 "8" ∅)) true [].

Definition s3cfg : hostConfigV8.t :=
  hostConfigV8.mk "https://s3.amazonaws.com" "AKIAEXAMPLE" "SECRETEXAMPLE" "S3v4".

Definition worldOf (hosts : gmap string hostConfigV8.t) : World :=
  mkWorld (Some (mkConfigV8 "8" hosts)) true [].

(** A table that already holds the alias "myphotos". *)
Definition photosHosts : gmap string hostConfigV8.t := {[ "myphotos"%string := s3cfg ]}.

(** A table with the aliases "a" and "bb". *)
Definition abHosts : gmap string hostConfigV8.t :=
  <[ "a"%string := s3cfg ]> {[ "bb"%string := s3cfg ]}.

(** A table whose only alias is not ASCII: two bytes, one rune. *)
Definition accentHosts : gmap string hostConfigV8.t := {[ "é"%string := s3cfg ]}.

End Sample.

(** ** Vocabulary of the statements *)

(** [ascii7 s]: every byte of [s] is below [RuneSelf]. *)
Fixpoint ascii7 (s : string) : bool :=
  match s with
  | EmptyString => true
  | String.String c t => (N_of_ascii c <? utf8.RuneSelf)%N && ascii7 t
  end.

(** [aboveSpace s]: every byte of [s] is greater than the space
    character, as in an alias made of letters, digits and punctuation. *)
Fixpoint aboveSpace (s : string) : bool :=
  match s with
  | EmptyString => true
  | String.String c t => (32 <? N_of_ascii c)%N && aboveSpace t
  end.

(** The string with the given bytes. *)
Definition bytes (l : list N) : string :=
  fold_right (fun n s => String.String (ascii_of_N n) s) EmptyString l.

(** The UTF-8 encodings of the runes for which [unicode.IsSpace] holds:
    six of ASCII, U+0085, U+00A0, U+1680, U+2000 to U+200A, U+2028,
    U+2029, U+202F, U+205F and U+3000. *)
Definition whiteSpace : list string :=
  map bytes
    [[9]; [10]; [11]; [12]; [13]; [32]; [194; 133]; [194; 160]; [225; 154; 128];
     [226; 128; 128]; [226; 128; 129]; [226; 128; 130]; [226; 128; 131];
     [226; 128; 132]; [226; 128; 133]; [226; 128; 134]; [226; 128; 135];
     [226; 128; 136]; [226; 128; 137]; [226; 128; 138]; [226; 128; 168];
     [226; 128; 169]; [226; 128; 175]; [226; 129; 159]; [227; 128; 128]]%N.

(** A run of white space: the encodings one after the other. *)
Definition blank (l : list string) : string := fold_right String.append EmptyString l.

Definition runeOf (e : string) : N := fst (utf8.DecodeRuneInString e).

(** [solidByte c]: an ASCII byte that is not white space. *)
Definition solidByte (c : ascii) : bool :=
  (N_of_ascii c <? utf8.RuneSelf)%N && negb (unicode.IsSpace (N_of_ascii c)).

(** Go's [<] on strings compares byte by byte. *)
Definition str_lt (a b : string) : Prop := String.ltb a b = true.

(** [a] may stand before [b] in ascending order. *)
Definition alias_le (a b : hostMessage.t) : Prop := byAlias_Less b a = false.
Definition alias_lt (a b : hostMessage.t) : Prop :=
  str_lt (hostMessage.Alias a) (hostMessage.Alias b).

(** The byte length of a longest key. *)
Definition longest (keys : list string) : nat :=
  foldr (fun k m => Nat.max (String.length k) m) 0 keys.

Definition verbs : list string := ["add"; "remove"; "list"]%string.

Definition addCountMessage : string :=
  "Incorrect number of arguments for host add command.".
Definition removeCountMessage : string :=
  "Incorrect number of arguments for remove host command.".

(** The messages the three operations hand to [printMsg]. *)
Definition addMessage (alias : string) (cfg : hostConfigV8.t) : hostMessage.t :=
  hostMessage.mk "add" EmptyString alias (hostConfigV8.URL cfg)
    (hostConfigV8.AccessKey cfg) (hostConfigV8.SecretKey cfg) (hostConfigV8.API cfg).

Definition removeMessage (alias : string) : hostMessage.t :=
  hostMessage.mk "remove" EmptyString alias EmptyString EmptyString EmptyString
    EmptyString.

Definition listMessage (alias : string) (cfg : hostConfigV8.t) : hostMessage.t :=
  hostMessage.mk "list" EmptyString alias (hostConfigV8.URL cfg)
    (hostConfigV8.AccessKey cfg) (hostConfigV8.SecretKey cfg) (hostConfigV8.API cfg).

(** The two parts of the text of a list message. *)
Definition listBase `{Externals} (h : hostMessage.t) : string :=
  Colorize "Alias" (hostMessage.Alias h +:+ ": ")
  +:+ Colorize "URL" (fmt.fmtS true (Some 30) (Some 30) (hostMessage.URL h)).

Definition listCredentials `{Externals} (h : hostMessage.t) : string :=
  Colorize "AccessKey"
    ("  " +:+ fmt.fmtS true (Some 20) (Some 20) (hostMessage.AccessKey h))
  +:+ Colorize "SecretKey"
        ("  " +:+ fmt.fmtS true (Some 40) (Some 40) (hostMessage.SecretKey h))
  +:+ Colorize "API" ("  " +:+ fmt.fmtS false None (Some 20) (hostMessage.API h)).

(** [validHost alias cfg]: an entry the checks of add let through. *)
Definition validHost `{Externals} (alias : string) (cfg : hostConfigV8.t) : Prop :=
  isValidAlias alias = true
  /\ isValidHostURL (hostConfigV8.URL cfg) = true
  /\ isValidAccessKey (hostConfigV8.AccessKey cfg) = true
  /\ isValidSecretKey (hostConfigV8.SecretKey cfg) = true
  /\ hostConfigV8.API cfg <> EmptyString.

(** [acceptable args]: a command line that passes [checkConfigHostSyntax]. *)
Definition acceptable `{Externals} (args : list string) : Prop :=
  let verb := strings.TrimSpace (Args.First args) in
  let tl := Args.Tail args in
  (verb = "add"%string
   /\ (length tl = 4 \/ length tl = 5)
   /\ isValidAlias (Args.Get tl 0) = true
   /\ isValidHostURL (Args.Get tl 1) = true
   /\ isValidAccessKey (Args.Get tl 2) = true
   /\ isValidSecretKey (Args.Get tl 3) = true
   /\ (Args.Get tl 4 = EmptyString \/ isValidAPI (Args.Get tl 4) = true))
  \/ (verb = "remove"%string /\ length tl = 1 /\ isValidAlias (Args.Get tl 0) = true)
  \/ verb = "list"%string.

(** The record add stores for the arguments after the verb. *)
Definition hostOfArgs (tl : list string) : hostConfigV8.t :=
  hostConfigV8.mk (Args.Get tl 1) (Args.Get tl 2) (Args.Get tl 3)
    (if String.eqb (Args.Get tl 4) EmptyString then "S3v4"%string else Args.Get tl 4).

(** The errors of the store, as [addHost], [removeHost] and [listHosts]
    hand them to [fatalIf]. *)
Definition loadError `{Externals} : probeError :=
  Trace (mkError ConfigIO []) [globalMCConfigVersion].
Definition saveError (alias : string) : probeError :=
  Trace (mkError ConfigIO []) [alias].


(** * Properties *)

(** ** Strings as byte sequences *)

Section StringFacts.

Lemma str_app_cons (c : ascii) (s t : string) :
  String.String c s +:+ t = String.String c (s +:+ t).
Proof. reflexivity. Qed.

Lemma str_app_nil_l (t : string) : EmptyString +:+ t = t.
Proof. reflexivity. Qed.

Lemma str_length_app (s t : string) :
  String.length (s +:+ t) = String.length s + String.length t.
Proof.
  induction s as [|c s IH]; [reflexivity|].
  rewrite str_app_cons. simpl. now rewrite IH.
Qed.

Lemma str_app_nil_r (s : string) : s +:+ EmptyString = s.
Proof.
  induction s as [|c s IH]; [reflexivity|]. rewrite str_app_cons. now rewrite IH.
Qed.

Lemma str_app_assoc (s t u : string) : (s +:+ t) +:+ u = s +:+ (t +:+ u).
Proof.
  induction s as [|c s IH]; [reflexivity|]. rewrite !str_app_cons. now rewrite IH.
Qed.

Lemma length_spaces (n : nat) : String.length (fmt.spaces n) = n.
Proof. induction n as [|n IH]; simpl; [reflexivity | now rewrite IH]. Qed.

Lemma substring_all (s : string) : substring 0 (String.length s) s = s.
Proof. induction s as [|c s IH]; simpl; [reflexivity | now rewrite IH]. Qed.

Lemma substring_prefix (s t : string) :
  substring 0 (String.length s) (s +:+ t) = s.
Proof.
  induction s as [|c s IH]; [now destruct t|].
  rewrite str_app_cons. simpl. now rewrite IH.
Qed.

Lemma substring_suffix (s t : string) :
  substring (String.length s) (String.length t) (s +:+ t) = t.
Proof.
  induction s as [|c s IH]; [apply substring_all|].
  rewrite str_app_cons. simpl. exact IH.
Qed.

Lemma length_substring (s : string) (n m : nat) :
  n + m <= String.length s -> String.length (substring n m s) = m.
Proof.
  revert n m; induction s as [|c s IH]; intros [|n] [|m] Hle; simpl in *;
    try reflexivity; try lia.
  - rewrite (IH 0 m); [reflexivity | lia].
  - apply IH; lia.
  - apply IH; lia.
Qed.

End StringFacts.

(** ** UTF-8 decoding *)


Arguments utf8.DecodeRuneInString s : simpl never.
Arguments utf8.DecodeLastRuneInString s : simpl never.

Section Utf8Facts.

Lemma first_Seq (c : N) (sz : nat) (lo hi : N) :
  utf8.first c = utf8.Seq sz lo hi ->
  (sz = 2 \/ sz = 3 \/ sz = 4) /\ (128 <= lo)%N /\ (hi <= 191)%N.
Proof.
  unfold utf8.first, utf8.locb, utf8.hicb.
  repeat match goal with
         | |- context [if ?b then _ else _] => destruct b
         end; intros Heq; inversion Heq; subst; repeat split; auto; lia.
Qed.

Lemma first_AS (c : N) : (c < 128)%N -> utf8.first c = utf8.AS.
Proof.
  intros Hc. unfold utf8.first.
  destruct (N.ltb_spec c 128); [reflexivity | lia].
Qed.

Lemma Decode_ascii (c : ascii) (t : string) :
  (N_of_ascii c < 128)%N ->
  utf8.DecodeRuneInString (String.String c t) = (N_of_ascii c, 1).
Proof. intros Hc. unfold utf8.DecodeRuneInString. now rewrite first_AS. Qed.

(** A rune never extends past the end of the string. *)
Lemma Decode_size_le (s : string) :
  snd (utf8.DecodeRuneInString s) <= String.length s.
Proof.
  destruct s as [|c0 t]; [simpl; lia|].
  unfold utf8.DecodeRuneInString.
  destruct (utf8.first (N_of_ascii c0)) as [| |sz lo hi] eqn:Hf;
    [simpl; lia | simpl; lia |].
  destruct (Nat.ltb_spec (String.length (String.String c0 t)) sz) as [Hlt|Hge];
    [simpl; lia|].
  apply first_Seq in Hf. destruct Hf as [Hsz _].
  repeat match goal with
         | |- context [match ?x with EmptyString => _ | String.String _ _ => _ end] =>
           destruct x
         | |- context [if ?b then _ else _] => destruct b
         end; simpl in *; lia.
Qed.


(** Bytes after the end of a rune do not change how it is decoded, as
    long as the first of them is an ASCII byte. *)
Lemma Decode_app (s : string) (c : ascii) (t : string) :
  s <> EmptyString -> (N_of_ascii c < 128)%N ->
  utf8.DecodeRuneInString (s +:+ String.String c t) = utf8.DecodeRuneInString s.
Proof.
  intros Hs Hc. destruct s as [|c0 s]; [congruence|]. clear Hs.
  rewrite str_app_cons. unfold utf8.DecodeRuneInString.
  destruct (utf8.first (N_of_ascii c0)) as [| |sz lo hi] eqn:Hf; try reflexivity.
  apply first_Seq in Hf. destruct Hf as (Hsz & Hlo & Hhi).
  assert (Hacc : ((N_of_ascii c <? lo) || (hi <? N_of_ascii c))%N = true).
  { destruct (N.ltb_spec (N_of_ascii c) lo); [reflexivity | lia]. }
  assert (Hcont : utf8.cont (N_of_ascii c) = false).
  { unfold utf8.cont, utf8.locb.
    destruct (N.leb_spec 128 (N_of_ascii c)); [lia | reflexivity]. }
  destruct s as [|c1 [|c2 [|c3 s]]]; rewrite ?str_app_cons, ?str_app_nil_l;
    simpl String.length;
    destruct Hsz as [-> | [-> | ->]]; simpl Nat.ltb; simpl Nat.leb; cbv iota;
    rewrite ?Hacc, ?Hcont; simpl negb; cbv iota;
    repeat match goal with
           | |- context [if ?b then _ else _] => destruct b eqn:?
           end; try reflexivity; try congruence;
    repeat match goal with
           | H : Nat.ltb _ _ = true |- _ => apply Nat.ltb_lt in H
           | H : Nat.ltb _ _ = false |- _ => apply Nat.ltb_ge in H
           end; simpl String.length in *; lia.
Qed.

Lemma rangeFrom_app (s : string) (c : ascii) (t : string) (k : nat) :
  (N_of_ascii c < 128)%N -> k <= String.length s ->
  utf8.rangeFrom k (s +:+ String.String c t)
  = utf8.rangeFrom k s ++ utf8.rangeFrom (k - String.length s) (String.String c t).
Proof.
  intros Hc. revert k. induction s as [|c0 s IH]; intros k Hk.
  - simpl in Hk. assert (k = 0) by lia. subst. reflexivity.
  - destruct k as [|k].
    + rewrite str_app_cons.
      cbn [utf8.rangeFrom].
      rewrite <- str_app_cons.
      rewrite Decode_app by (congruence || assumption).
      pose proof (Decode_size_le (String.String c0 s)) as Hle.
      simpl String.length in Hle.
      rewrite IH by lia.
      replace (snd (utf8.DecodeRuneInString (String.String c0 s)) - 1
               - String.length s) with 0 by lia.
      reflexivity.
    + simpl in Hk. rewrite str_app_cons. simpl. apply IH. lia.
Qed.

Lemma runes_spaces (n : nat) :
  length (utf8.runes (fmt.spaces n)) = n.
Proof.
  unfold utf8.runes. induction n as [|n IH]; [reflexivity|].
  simpl fmt.spaces. cbn [utf8.rangeFrom].
  rewrite Decode_ascii by (vm_compute; reflexivity).
  simpl. now rewrite IH.
Qed.

Lemma rangeFrom_length_le (s : string) (k : nat) :
  length (utf8.rangeFrom k s) <= String.length s.
Proof.
  revert k. induction s as [|c s IH]; intros k; [simpl; lia|].
  destruct k; cbn [utf8.rangeFrom]; simpl.
  - specialize (IH (snd (utf8.DecodeRuneInString (String.String c s)) - 1)). lia.
  - specialize (IH k). lia.
Qed.

Lemma RuneCount_le_length (s : string) :
  utf8.RuneCountInString s <= String.length s.
Proof. apply rangeFrom_length_le. Qed.

(** Padding with spaces adds one rune per space. *)
Lemma RuneCount_app_spaces (s : string) (n : nat) :
  utf8.RuneCountInString (s +:+ fmt.spaces n) = utf8.RuneCountInString s + n.
Proof.
  unfold utf8.RuneCountInString, utf8.runes.
  destruct n as [|n]; [simpl fmt.spaces; rewrite str_app_nil_r; lia|].
  change (fmt.spaces (S n)) with (String.String " "%char (fmt.spaces n)).
  rewrite rangeFrom_app by (vm_compute; reflexivity || lia).
  rewrite length_app. simpl Nat.sub.
  change (String.String " "%char (fmt.spaces n)) with (fmt.spaces (S n)).
  fold (utf8.runes (fmt.spaces (S n))). now rewrite runes_spaces.
Qed.

Lemma runes_ascii7 (s : string) :
  ascii7 s = true -> utf8.RuneCountInString s = String.length s.
Proof.
  unfold utf8.RuneCountInString, utf8.runes.
  induction s as [|c s IH]; [reflexivity|].
  simpl ascii7. intros Hs. apply andb_true_iff in Hs. destruct Hs as [Hc Hs].
  apply N.ltb_lt in Hc. cbn [utf8.rangeFrom].
  rewrite Decode_ascii by exact Hc. simpl. now rewrite IH.
Qed.

End Utf8Facts.

(** ** fmt: what the verbs of this file produce *)

Section FmtFacts.

(** [%-*.*s] with the same width and precision [w], on a string of at
    most [w] bytes: nothing is cut, and spaces are added on the right
    until the text has [w] runes. *)
Lemma fmtS_pad (w : nat) (s : string) :
  String.length s <= w ->
  fmt.fmtS true (Some w) (Some w) s = s +:+ fmt.spaces (w - utf8.RuneCountInString s).
Proof.
  intros Hle. unfold fmt.fmtS, fmt.truncate, fmt.padString.
  pose proof (RuneCount_le_length s) as Hrc.
  destruct (Nat.ltb_spec w (utf8.RuneCountInString s)) as [Hlt|Hge]; [lia|].
  reflexivity.
Qed.

Lemma fmtS_pad_runes (w : nat) (s : string) :
  String.length s <= w ->
  utf8.RuneCountInString (fmt.fmtS true (Some w) (Some w) s) = w.
Proof.
  intros Hle. rewrite fmtS_pad by exact Hle. rewrite RuneCount_app_spaces.
  pose proof (RuneCount_le_length s). lia.
Qed.

Lemma fmtS_pad_length (w : nat) (s : string) :
  String.length s <= w ->
  String.length (fmt.fmtS true (Some w) (Some w) s)
  = String.length s + (w - utf8.RuneCountInString s).
Proof.
  intros Hle. rewrite fmtS_pad by exact Hle.
  now rewrite str_length_app, length_spaces.
Qed.

End FmtFacts.

(** ** The order of Go's [<] on strings *)

Section StringOrder.

Lemma compare_refl (s : string) : String.compare s s = Eq.
Proof.
  induction s as [|c s IH]; [reflexivity|]. simpl.
  unfold Ascii.compare. now rewrite N.compare_refl.
Qed.

Lemma compare_Lt_trans (a b c : string) :
  String.compare a b = Lt -> String.compare b c = Lt -> String.compare a c = Lt.
Proof.
  revert b c. induction a as [|x a IH]; intros [|y b] [|z c]; simpl;
    try congruence.
  unfold Ascii.compare.
  destruct (N.compare_spec (N_of_ascii x) (N_of_ascii y)) as [Hxy|Hxy|Hxy];
    destruct (N.compare_spec (N_of_ascii y) (N_of_ascii z)) as [Hyz|Hyz|Hyz];
    try congruence; intros H1 H2;
    destruct (N.compare_spec (N_of_ascii x) (N_of_ascii z)) as [Hxz|Hxz|Hxz];
    try reflexivity; try lia.
  eapply IH; eassumption.
Qed.

Lemma str_lt_irrefl (a : string) : ~ str_lt a a.
Proof. unfold str_lt, String.ltb. now rewrite compare_refl. Qed.

Lemma str_lt_trans (a b c : string) : str_lt a b -> str_lt b c -> str_lt a c.
Proof.
  unfold str_lt, String.ltb. intros H1 H2.
  destruct (String.compare a b) eqn:Hab; try discriminate.
  destruct (String.compare b c) eqn:Hbc; try discriminate.
  now rewrite (compare_Lt_trans a b c).
Qed.

Lemma str_lt_trichotomy (a b : string) : str_lt a b \/ a = b \/ str_lt b a.
Proof.
  unfold str_lt, String.ltb.
  destruct (String.compare a b) eqn:Hab.
  - right; left. now apply String.compare_eq_iff.
  - now left.
  - right; right. rewrite String.compare_antisym, Hab. reflexivity.
Qed.

Lemma ltb_false_iff (a b : string) : String.ltb a b = false <-> (a = b \/ str_lt b a).
Proof.
  split.
  - intros Hf. destruct (str_lt_trichotomy a b) as [H|H]; [|exact H].
    unfold str_lt in H. congruence.
  - intros [->|H].
    + apply not_true_is_false. apply str_lt_irrefl.
    + apply not_true_is_false. intros H'. apply (str_lt_irrefl a).
      eapply str_lt_trans; eassumption.
Qed.

End StringOrder.

(** ** sort.Sort with [byAlias.Less] *)

Section SortFacts.

#[local] Abbreviation Alias := hostMessage.Alias.
#[local] Abbreviation Less := byAlias_Less.


Lemma alias_le_trans (a b c : hostMessage.t) :
  alias_le a b -> alias_le b c -> alias_le a c.
Proof.
  unfold alias_le, byAlias_Less. rewrite !ltb_false_iff.
  intros [H1|H1] [H2|H2].
  - left. congruence.
  - right. now rewrite <- H1.
  - right. now rewrite H2.
  - right. eapply str_lt_trans; eassumption.
Qed.

Lemma sink_perm (x : hostMessage.t) (p : list hostMessage.t) :
  Permutation (sort.sink Less x p) (x :: p).
Proof.
  induction p as [|y p IH]; simpl; [reflexivity|].
  destruct (Less x y); [|reflexivity].
  rewrite IH. apply perm_swap.
Qed.

(** The part of the slice already visited is kept in order: seen from
    the element nearest to [x], it descends. *)
Lemma sink_sorted (x : hostMessage.t) (p : list hostMessage.t) :
  StronglySorted (fun a b => alias_le b a) p ->
  StronglySorted (fun a b => alias_le b a) (sort.sink Less x p).
Proof.
  induction 1 as [|y p Hp IH Hy]; simpl.
  - constructor; constructor.
  - destruct (Less x y) eqn:Hxy.
    + constructor; [exact IH|].
      eapply Permutation_Forall; [symmetry; apply sink_perm|].
      constructor; [|exact Hy].
      unfold alias_le, byAlias_Less. apply ltb_false_iff. right.
      exact Hxy.
    + constructor; [constructor; assumption|].
      constructor; [exact Hxy|].
      eapply Forall_impl; [exact Hy|]. intros z Hz. simpl in Hz.
      eapply alias_le_trans; [exact Hz | exact Hxy].
Qed.


Lemma insertion_perm (data p : list hostMessage.t) :
  Permutation (fold_left (fun p x => sort.sink Less x p) data p) (data ++ p).
Proof.
  revert p. induction data as [|x data IH]; intros p; simpl; [reflexivity|].
  rewrite IH, sink_perm. symmetry. apply Permutation_middle.
Qed.

Lemma insertion_sorted (data p : list hostMessage.t) :
  StronglySorted (fun a b => alias_le b a) p ->
  StronglySorted (fun a b => alias_le b a)
    (fold_left (fun p x => sort.sink Less x p) data p).
Proof.
  revert p. induction data as [|x data IH]; intros p Hp; simpl; [exact Hp|].
  apply IH. now apply sink_sorted.
Qed.

Lemma StronglySorted_snoc {A} (R : A -> A -> Prop) (l : list A) (x : A) :
  StronglySorted R l -> Forall (fun y => R y x) l -> StronglySorted R (l ++ [x]).
Proof.
  induction 1 as [|y l Hl IH Hy]; intros Hx; simpl.
  - constructor; constructor.
  - inversion Hx; subst. constructor; [now apply IH|].
    apply Forall_app; split; [exact Hy|]. constructor; [assumption|constructor].
Qed.

Lemma StronglySorted_rev {A} (R : A -> A -> Prop) (l : list A) :
  StronglySorted (fun a b => R b a) l -> StronglySorted R (rev l).
Proof.
  induction 1 as [|y l Hl IH Hy]; simpl; [constructor|].
  apply StronglySorted_snoc; [exact IH|].
  apply Forall_rev. exact Hy.
Qed.

Theorem Sort_perm (data : list hostMessage.t) :
  Permutation (sort.Sort Less data) data.
Proof.
  unfold sort.Sort. rewrite <- Permutation_rev, insertion_perm.
  now rewrite app_nil_r.
Qed.

Theorem Sort_sorted (data : list hostMessage.t) :
  StronglySorted alias_le (sort.Sort Less data).
Proof.
  unfold sort.Sort. apply StronglySorted_rev, insertion_sorted. constructor.
Qed.

(** With pairwise distinct aliases the order is strict. *)
Lemma sorted_strict (l : list hostMessage.t) :
  NoDup (map Alias l) -> StronglySorted alias_le l -> StronglySorted alias_lt l.
Proof.
  induction l as [|a l IH]; intros Hnd Hs; [constructor|].
  apply StronglySorted_inv in Hs. destruct Hs as [Hs Ha].
  simpl in Hnd. apply NoDup_cons in Hnd. destruct Hnd as [Hnotin Hnd].
  constructor; [now apply IH|].
  rewrite Forall_forall in Ha |- *. intros b Hb.
  specialize (Ha b Hb). unfold alias_le, byAlias_Less in Ha.
  apply ltb_false_iff in Ha. destruct Ha as [Heq|Hlt]; [|exact Hlt].
  exfalso. apply Hnotin. rewrite <- Heq. apply list_elem_of_fmap_2. exact Hb.
Qed.

Theorem Sort_strict (data : list hostMessage.t) :
  NoDup (map Alias data) -> StronglySorted alias_lt (sort.Sort Less data).
Proof.
  intros Hnd. apply sorted_strict; [|apply Sort_sorted].
  assert (Hp : Permutation (map Alias (sort.Sort Less data)) (map Alias data))
    by apply Permutation_map, Sort_perm.
  rewrite Hp. exact Hnd.
Qed.

(** A slice has at most one strictly ascending arrangement, so the
    choice of sorting algorithm does not matter. *)
Lemma sorted_unique (l1 l2 : list hostMessage.t) :
  StronglySorted alias_lt l1 -> StronglySorted alias_lt l2 ->
  Permutation l1 l2 -> l1 = l2.
Proof.
  intros H1. revert l2. induction H1 as [|a l1 Hl1 IH Ha]; intros l2 H2 Hp.
  - apply Permutation_nil in Hp. now subst.
  - destruct H2 as [|b l2 Hl2 Hb].
    + symmetry in Hp. apply Permutation_nil in Hp. discriminate.
    + assert (Hab : a = b).
      { assert (Hin1 : In a (b :: l2)).
        { eapply Permutation_in; [exact Hp|]. now left. }
        assert (Hin2 : In b (a :: l1)).
        { eapply Permutation_in; [symmetry; exact Hp|]. now left. }
        destruct Hin1 as [Heq|Hin1]; [now symmetry|].
        destruct Hin2 as [Heq|Hin2]; [exact Heq|].
        rewrite Forall_forall in Ha, Hb.
        apply list_elem_of_In in Hin1, Hin2.
        specialize (Ha b Hin2). specialize (Hb a Hin1).
        exfalso. apply (str_lt_irrefl (Alias a)).
        eapply str_lt_trans; eassumption. }
      subst b. f_equal. apply IH; [exact Hl2|].
      eapply Permutation_cons_inv. exact Hp.
Qed.

Theorem Sort_unique (data out : list hostMessage.t) :
  NoDup (map Alias data) ->
  Permutation out data -> StronglySorted alias_lt out ->
  out = sort.Sort Less data.
Proof.
  intros Hnd Hp Hs. apply sorted_unique; [exact Hs|now apply Sort_strict|].
  rewrite Hp. symmetry. apply Sort_perm.
Qed.

End SortFacts.

(** ** The commands on a loadable, writable configuration *)

Ltac run_cmd :=
  unfold bind, when, ret, fatalIf, ShowCommandHelpAndExit, loadMcConfig,
    saveMcConfig, printMsg; simpl.

Section CommandFacts.
Context `{Externals}.



Lemma addHost_ok (alias : string) (cfg : hostConfigV8.t) (w : World) (c : configV8) :
  config w = Some c -> writable w = true ->
  addHost alias cfg w
  = Return tt (mkWorld (Some (mkConfigV8 (Version c) (<[alias := cfg]> (Hosts c))))
                 true (console w ++ [addMessage alias cfg])).
Proof.
  intros Hc Hw. unfold addHost. run_cmd. rewrite Hc. simpl. rewrite Hw. simpl.
  reflexivity.
Qed.


Lemma displayHosts_ok (n : nat) (hosts : list hostMessage.t) (w : World) :
  displayHosts n hosts w
  = Return tt (mkWorld (config w) (writable w)
                 (console w ++ map (padAlias n) hosts)).
Proof.
  revert w. induction hosts as [|h hosts IH]; intros w.
  - simpl. unfold ret. rewrite app_nil_r. now destruct w.
  - simpl. unfold bind, printMsg. rewrite IH. simpl.
    now rewrite <- app_assoc.
Qed.

Lemma listHosts_ok (w : World) (c : configV8) :
  config w = Some c ->
  listHosts w
  = Return tt (mkWorld (config w) (writable w)
                 (console w ++
                  map (padAlias (maxAliasOf (map fst (rangeHosts 0 (Hosts c)))))
                      (sort.Sort byAlias_Less (hostsOf (rangeHosts 1 (Hosts c)))))).
Proof.
  intros Hc. unfold listHosts. unfold bind at 1. unfold loadMcConfig.
  rewrite Hc. rewrite displayHosts_ok. now rewrite Hc.
Qed.

End CommandFacts.

(** ** Claims about add and remove *)

Section AddRemove.
Context `{Externals}.



(** Two adds under different aliases leave the same document whichever
    comes first: the table does not remember the order of insertion. *)
Lemma add_order_free (a1 a2 : string) (c1 c2 : hostConfigV8.t) (w : World)
    (c : configV8) :
  config w = Some c -> writable w = true -> a1 <> a2 ->
  config (world (addHost a2 c2 (world (addHost a1 c1 w))))
  = config (world (addHost a1 c1 (world (addHost a2 c2 w)))).
Proof.
  intros Hc Hw Hne.
  rewrite (addHost_ok a1 c1 w c Hc Hw), (addHost_ok a2 c2 w c Hc Hw).
  cbn [world].
  erewrite (addHost_ok a2 c2), (addHost_ok a1 c1) by reflexivity.
  cbn [world config Version Hosts]. do 2 f_equal.
  now apply insert_insert_ne.
Qed.

End AddRemove.



(** ** Claims about the command line *)

Section CommandLine.
Context `{Externals}.

Lemma verb_present (args : list string) (v : string) :
  v <> EmptyString ->
  strings.TrimSpace (Args.First args) = v -> Args.Present args = true.
Proof.
  intros Hv Ht. destruct args as [|a args]; [|reflexivity].
  exfalso. apply Hv. rewrite <- Ht. reflexivity.
Qed.

Lemma check_add (args : list string) (w : World) :
  strings.TrimSpace (Args.First args) = "add"%string ->
  checkConfigHostSyntax args w = checkConfigHostAddSyntax args w.
Proof.
  intros Hv. unfold checkConfigHostSyntax.
  rewrite (verb_present args "add") by (discriminate || exact Hv).
  rewrite Hv. reflexivity.
Qed.

Lemma check_remove (args : list string) (w : World) :
  strings.TrimSpace (Args.First args) = "remove"%string ->
  checkConfigHostSyntax args w = checkConfigHostRemoveSyntax args w.
Proof.
  intros Hv. unfold checkConfigHostSyntax.
  rewrite (verb_present args "remove") by (discriminate || exact Hv).
  rewrite Hv. reflexivity.
Qed.

Lemma check_list (args : list string) (w : World) :
  strings.TrimSpace (Args.First args) = "list"%string ->
  checkConfigHostSyntax args w = Return tt w.
Proof.
  intros Hv. unfold checkConfigHostSyntax.
  rewrite (verb_present args "list") by (discriminate || exact Hv).
  rewrite Hv. reflexivity.
Qed.

(** An exit of the syntax check is the exit of the command: nothing is
    dispatched after it. *)
Lemma main_exits_with_check (args : list string) (w w' : World) (code : Z)
    (r : exitReason) :
  checkConfigHostSyntax args w = Exit code r w' ->
  mainConfigHost args w = Exit code r w'.
Proof. intros Hx. unfold mainConfigHost, bind. now rewrite Hx. Qed.

Lemma main_after_check (args : list string) (w : World) :
  checkConfigHostSyntax args w = Return tt w ->
  mainConfigHost args w
  = (let verb := strings.TrimSpace (Args.First args) in
     let tl := Args.Tail args in
     if String.eqb verb "add" then
       addHost (Args.Get tl 0)
         (hostConfigV8.mk (Args.Get tl 1) (Args.Get tl 2) (Args.Get tl 3)
            (if String.eqb (Args.Get tl 4) EmptyString then "S3v4"%string
             else Args.Get tl 4)) w
     else if String.eqb verb "remove" then removeHost (Args.Get tl 0) w
     else if String.eqb verb "list" then listHosts w
     else Return tt w).
Proof.
  intros Hx. unfold mainConfigHost, bind. rewrite Hx. cbv zeta.
  repeat match goal with |- context [if ?b then _ else _] => destruct b end;
    reflexivity.
Qed.


(** C7. With the verb add and a number of trailing arguments other than
    4 or 5, and with the verb remove and a number other than 1, the
    command stops with the fatal argument-count error; the world is the
    one it started from, so no operation has run. *)
Theorem wrong_argument_count (args : list string) (w : World) (msg : string) :
  (strings.TrimSpace (Args.First args) = "add"%string
   /\ length (Args.Tail args) <> 4 /\ length (Args.Tail args) <> 5
   /\ msg = addCountMessage)
  \/ (strings.TrimSpace (Args.First args) = "remove"%string
      /\ length (Args.Tail args) <> 1
      /\ msg = removeCountMessage) ->
  mainConfigHost args w
  = Exit 1 (Fatal (Trace errInvalidArgument (Args.Tail args)) msg) w.
Proof.
  intros [(Hv & H4 & H5 & ->) | (Hv & H1 & ->)]; apply main_exits_with_check.
  - rewrite check_add by exact Hv. unfold checkConfigHostAddSyntax.
    unfold bind at 1.
    assert (Hcount : ((length (Args.Tail args) <? 4)
                      || (5 <? length (Args.Tail args))) = true).
    { destruct (Nat.ltb_spec (length (Args.Tail args)) 4); [reflexivity|].
      destruct (Nat.ltb_spec 5 (length (Args.Tail args))); [reflexivity|]. lia. }
    rewrite Hcount. reflexivity.
  - rewrite check_remove by exact Hv. unfold checkConfigHostRemoveSyntax.
    unfold bind at 1.
    destruct (Nat.eqb_spec (length (Args.Tail args)) 1) as [Heq|Hne]; [lia|].
    reflexivity.
Qed.

(** C2. An add whose API argument is not empty and is neither "S3v4" nor
    "S3v2" stops in the syntax check with a fatal error and exit code 1.
    The error is one of the argument errors, not an error of loading or
    saving, and the world, the configuration document included, is the
    one the command started from.  When the other arguments pass their
    checks the message is the one about the API signature. *)
Theorem add_rejects_unknown_api (args : list string) (w : World) :
  strings.TrimSpace (Args.First args) = "add"%string ->
  Args.Get (Args.Tail args) 4 <> EmptyString ->
  Args.Get (Args.Tail args) 4 <> "S3v4"%string ->
  Args.Get (Args.Tail args) 4 <> "S3v2"%string ->
  exists (e : probeError) (msg : string),
    checkConfigHostSyntax args w = Exit 1 (Fatal e msg) w
    /\ mainConfigHost args w = Exit 1 (Fatal e msg) w
    /\ errCause e <> ConfigIO
    /\ config (world (mainConfigHost args w)) = config w
    /\ (length (Args.Tail args) = 5 ->
        isValidAlias (Args.Get (Args.Tail args) 0) = true ->
        isValidHostURL (Args.Get (Args.Tail args) 1) = true ->
        isValidAccessKey (Args.Get (Args.Tail args) 2) = true ->
        isValidSecretKey (Args.Get (Args.Tail args) 3) = true ->
        msg = "Unrecognized API signature. Valid options are ‘[S3v4, S3v2]’."%string).
Proof.
  intros Hv Hne H4 H2.
  assert (Hapi : negb (String.eqb (Args.Get (Args.Tail args) 4) EmptyString)
                 && negb (isValidAPI (Args.Get (Args.Tail args) 4)) = true).
  { unfold isValidAPI.
    destruct (String.eqb_spec (Args.Get (Args.Tail args) 4) EmptyString);
      [congruence|].
    destruct (String.eqb_spec (Args.Get (Args.Tail args) 4) "S3v4");
      [congruence|].
    destruct (String.eqb_spec (Args.Get (Args.Tail args) 4) "S3v2");
      [congruence|]. reflexivity. }
  assert (Hex : exists (e : probeError) (msg : string),
             checkConfigHostAddSyntax args w = Exit 1 (Fatal e msg) w
             /\ errCause e <> ConfigIO
             /\ (length (Args.Tail args) = 5 ->
                 isValidAlias (Args.Get (Args.Tail args) 0) = true ->
                 isValidHostURL (Args.Get (Args.Tail args) 1) = true ->
                 isValidAccessKey (Args.Get (Args.Tail args) 2) = true ->
                 isValidSecretKey (Args.Get (Args.Tail args) 3) = true ->
                 msg = "Unrecognized API signature. Valid options are ‘[S3v4, S3v2]’."%string)).
  { unfold checkConfigHostAddSyntax. cbv zeta. rewrite Hapi.
    unfold bind, when, fatalIf, ret.
    destruct ((length (Args.Tail args) <? 4) || (5 <? length (Args.Tail args)))
      eqn:Hcount.
    { eexists _, _. split; [reflexivity|]. split; [discriminate|].
      intros H5. rewrite H5 in Hcount. discriminate. }
    destruct (isValidAlias (Args.Get (Args.Tail args) 0)); simpl;
      [|eexists _, _; split; [reflexivity|]; split; [discriminate|];
        intros; discriminate].
    destruct (isValidHostURL (Args.Get (Args.Tail args) 1)); simpl;
      [|eexists _, _; split; [reflexivity|]; split; [discriminate|];
        intros; discriminate].
    destruct (isValidAccessKey (Args.Get (Args.Tail args) 2)); simpl;
      [|eexists _, _; split; [reflexivity|]; split; [discriminate|];
        intros; discriminate].
    destruct (isValidSecretKey (Args.Get (Args.Tail args) 3)); simpl;
      [|eexists _, _; split; [reflexivity|]; split; [discriminate|];
        intros; discriminate].
    eexists _, _. split; [reflexivity|]. split; [discriminate|].
    intros; reflexivity. }
  destruct Hex as (e & msg & Hx & Hcause & Hmsg).
  rewrite <- check_add in Hx by exact Hv.
  exists e, msg. split; [exact Hx|].
  pose proof (main_exits_with_check _ _ _ _ _ Hx) as Hm.
  split; [exact Hm|]. split; [exact Hcause|].
  split; [now rewrite Hm | exact Hmsg].
Qed.

End CommandLine.

Lemma wrong_argument_count_witness :
  mainConfigHost (H := Sample.env)
    ["add"; "s3"; "https://s3.amazonaws.com"; "AKIAEXAMPLE"]%string Sample.emptyWorld
  = Exit 1 (Fatal (Trace errInvalidArgument
                     ["s3"; "https://s3.amazonaws.com"; "AKIAEXAMPLE"]%string)
              addCountMessage) Sample.emptyWorld
  /\ mainConfigHost (H := Sample.env) ["remove"]%string Sample.emptyWorld
     = Exit 1 (Fatal (Trace errInvalidArgument []) removeCountMessage) Sample.emptyWorld.
Proof.
  split.
  - apply (wrong_argument_count (H := Sample.env)
             ["add"; "s3"; "https://s3.amazonaws.com"; "AKIAEXAMPLE"]%string).
    left. repeat split; (vm_compute; congruence) || reflexivity.
  - apply (wrong_argument_count (H := Sample.env) ["remove"]%string).
    right. repeat split; (vm_compute; congruence) || reflexivity.
Defined.

Lemma add_rejects_unknown_api_witness :
  exists (e : probeError) (msg : string),
    mainConfigHost (H := Sample.env)
      ["add"; "s3"; "https://s3.amazonaws.com"; "AKIAEXAMPLE"; "SECRETEXAMPLE"; "S3v5"]%string
      Sample.emptyWorld
    = Exit 1 (Fatal e msg) Sample.emptyWorld
    /\ msg = "Unrecognized API signature. Valid options are ‘[S3v4, S3v2]’."%string.
Proof.
  destruct (add_rejects_unknown_api (H := Sample.env)
              ["add"; "s3"; "https://s3.amazonaws.com"; "AKIAEXAMPLE"; "SECRETEXAMPLE"; "S3v5"]%string
              Sample.emptyWorld)
    as (e & msg & _ & Hm & _ & _ & Hmsg);
    try (vm_compute; congruence).
  exists e, msg. split; [exact Hm|]. apply Hmsg; reflexivity.
Defined.

(** ** Listing *)


Section ListFacts.
Context `{Externals}.

#[local] Abbreviation Alias := hostMessage.Alias.


Lemma maxAliasOf_from (keys : list string) (acc : nat) :
  fold_left (fun maxAlias k =>
               if (maxAlias <? String.length k)%nat then String.length k else maxAlias)
            keys acc
  = Nat.max acc (longest keys).
Proof.
  revert acc. induction keys as [|k keys IH]; intros acc; simpl; [lia|].
  rewrite IH. destruct (Nat.ltb_spec acc (String.length k)); lia.
Qed.

Lemma maxAliasOf_longest (keys : list string) : maxAliasOf keys = longest keys.
Proof. unfold maxAliasOf. rewrite maxAliasOf_from. lia. Qed.

Lemma longest_perm (l l' : list string) :
  Permutation l l' -> longest l = longest l'.
Proof.
  induction 1 as [|x l l' Hp IH|x y l|l l' l'' H1 IH1 H2 IH2]; simpl;
    try lia.
Qed.

Lemma longest_bound (keys : list string) (k : string) :
  k ∈ keys -> String.length k <= longest keys.
Proof.
  induction 1 as [k keys|k k' keys Hin IH]; simpl; lia.
Qed.

Lemma longest_attained (keys : list string) :
  keys <> [] -> exists k, k ∈ keys /\ String.length k = longest keys.
Proof.
  induction keys as [|k keys IH]; [congruence|]. intros _. simpl.
  destruct keys as [|k' keys].
  - exists k. split; [left|simpl; lia].
  - destruct IH as (k0 & Hin & Hlen); [discriminate|].
    destruct (Nat.max_spec (String.length k) (longest (k' :: keys)))
      as [[Hlt Hmax]|[Hge Hmax]]; rewrite Hmax.
    + exists k0. split; [now right|exact Hlen].
    + exists k. split; [left|reflexivity].
Qed.

Lemma hostsOf_alias (entries : list (string * hostConfigV8.t)) :
  map Alias (hostsOf entries) = map fst entries.
Proof. unfold hostsOf. rewrite map_map. reflexivity. Qed.

Lemma hostsOf_perm (l l' : list (string * hostConfigV8.t)) :
  Permutation l l' -> Permutation (hostsOf l) (hostsOf l').
Proof. apply Permutation_map. Qed.

Lemma hostsOf_NoDup (m : gmap string hostConfigV8.t)
    (l : list (string * hostConfigV8.t)) :
  Permutation l (map_to_list m) -> NoDup (map Alias (hostsOf l)).
Proof.
  intros Hp. rewrite hostsOf_alias.
  assert (Hp' : Permutation (map fst l) (map fst (map_to_list m)))
    by now apply Permutation_map.
  rewrite Hp'. apply NoDup_fst_map_to_list.
Qed.

(** Whatever order the [range] loop visits the map in, sorting gives
    the same slice. *)
Lemma sorted_hosts_order_free (m : gmap string hostConfigV8.t)
    (l : list (string * hostConfigV8.t)) :
  Permutation l (map_to_list m) ->
  sort.Sort byAlias_Less (hostsOf l)
  = sort.Sort byAlias_Less (hostsOf (map_to_list m)).
Proof.
  intros Hp. apply Sort_unique.
  - now apply (hostsOf_NoDup m).
  - rewrite Sort_perm. now apply hostsOf_perm.
  - apply Sort_strict. now apply (hostsOf_NoDup m).
Qed.

Lemma listHosts_lawful (w : World) (c : configV8) :
  rangeLawful -> config w = Some c ->
  listHosts w
  = Return tt (mkWorld (config w) (writable w)
                 (console w ++
                  map (padAlias (longest (map fst (map_to_list (Hosts c)))))
                      (sort.Sort byAlias_Less (hostsOf (map_to_list (Hosts c)))))).
Proof.
  intros Hlaw Hc. rewrite (listHosts_ok w c Hc).
  rewrite maxAliasOf_longest.
  rewrite (longest_perm _ (map fst (map_to_list (Hosts c))))
    by apply Permutation_map, Hlaw.
  rewrite (sorted_hosts_order_free (Hosts c)) by apply Hlaw.
  reflexivity.
Qed.

(** Padding keeps the strict order of texts whose bytes are all above
    the space character. *)
Lemma pad_keeps_order (a b : string) (n m : nat) :
  aboveSpace b = true -> str_lt a b ->
  str_lt (a +:+ fmt.spaces n) (b +:+ fmt.spaces m).
Proof.
  unfold str_lt, String.ltb. revert b.
  induction a as [|x a IH]; intros [|y b] Hb Hlt; simpl in Hlt; try discriminate.
  - rewrite str_app_nil_l, str_app_cons. simpl in Hb.
    apply andb_true_iff in Hb. destruct Hb as [Hy _]. apply N.ltb_lt in Hy.
    destruct n as [|n]; [reflexivity|]. simpl. unfold Ascii.compare.
    change (N_of_ascii " ") with 32%N.
    destruct (N.compare_spec 32 (N_of_ascii y)); try reflexivity; lia.
  - rewrite !str_app_cons. simpl. simpl in Hb.
    apply andb_true_iff in Hb. destruct Hb as [_ Hb].
    destruct (Ascii.compare x y); try discriminate; [|reflexivity].
    now apply IH.
Qed.

End ListFacts.

(** ** Claims about list *)

Arguments padAlias maxAlias host : simpl never.
Arguments fmt.fmtS minus wid prec s : simpl never.

Section ListClaims.
Context `{Externals}.

#[local] Abbreviation Alias := hostMessage.Alias.

Lemma sorted_aliases (hosts : list hostMessage.t) :
  StronglySorted alias_lt hosts -> StronglySorted str_lt (map Alias hosts).
Proof.
  induction 1 as [|h hosts Hs IH Hh]; simpl; constructor; [exact IH|].
  apply Forall_map. exact Hh.
Qed.

Lemma keys_bounded (c : configV8) (h : hostMessage.t) :
  h ∈ sort.Sort byAlias_Less (hostsOf (map_to_list (Hosts c))) ->
  String.length (Alias h) <= maxAliasOf (map fst (map_to_list (Hosts c))).
Proof.
  intros Hin. rewrite maxAliasOf_longest. apply longest_bound.
  rewrite <- hostsOf_alias. apply list_elem_of_fmap_2.
  rewrite <- (Sort_perm (hostsOf (map_to_list (Hosts c)))). exact Hin.
Qed.

Lemma padAlias_alias (n : nat) (h : hostMessage.t) :
  String.length (Alias h) <= n ->
  Alias (padAlias n h) = Alias h +:+ fmt.spaces (n - utf8.RuneCountInString (Alias h)).
Proof. intros Hle. unfold padAlias. simpl. now apply fmtS_pad. Qed.

(** What list does on a loadable document: it prints the sorted slice,
    padded, and the slice holds the keys of the table in strictly
    increasing order. *)
Lemma listHosts_sorted_run (w : World) (c : configV8) :
  rangeLawful -> config w = Some c ->
  let maxAlias := maxAliasOf (map fst (map_to_list (Hosts c))) in
  let hosts := sort.Sort byAlias_Less (hostsOf (map_to_list (Hosts c))) in
  listHosts w
  = Return tt (mkWorld (config w) (writable w)
                 (console w ++ map (padAlias maxAlias) hosts))
  /\ Permutation (map Alias hosts) (map fst (map_to_list (Hosts c)))
  /\ StronglySorted str_lt (map Alias hosts).
Proof.
  intros Hlaw Hc maxAlias hosts.
  assert (Hnd : NoDup (map Alias (hostsOf (map_to_list (Hosts c)))))
    by now apply (hostsOf_NoDup (Hosts c)).
  split.
  { rewrite (listHosts_lawful w c Hlaw Hc).
    unfold maxAlias. now rewrite maxAliasOf_longest. }
  split.
  { rewrite <- hostsOf_alias. apply Permutation_map, Sort_perm. }
  apply sorted_aliases. now apply Sort_strict.
Qed.

(** C5. The entries list prints follow each other in strictly increasing
    byte-wise order of their aliases.  The sorted slice is a function of
    the table alone: neither the order in which the two range loops
    visit the map nor the order in which entries were added has any
    influence.  The alias fields as printed, that is after padding, are
    strictly increasing too when every alias consists of bytes above the
    space character. *)
Theorem list_sorted_by_alias (w : World) (c : configV8) :
  rangeLawful -> config w = Some c ->
  let maxAlias := maxAliasOf (map fst (map_to_list (Hosts c))) in
  let hosts := sort.Sort byAlias_Less (hostsOf (map_to_list (Hosts c))) in
  listHosts w
  = Return tt (mkWorld (config w) (writable w)
                 (console w ++ map (padAlias maxAlias) hosts))
  /\ Permutation (map Alias hosts) (map fst (map_to_list (Hosts c)))
  /\ StronglySorted str_lt (map Alias hosts)
  /\ (Forall (fun k => aboveSpace k = true) (map Alias hosts) ->
      StronglySorted str_lt (map (fun h => Alias (padAlias maxAlias h)) hosts)).
Proof.
  intros Hlaw Hc maxAlias hosts.
  destruct (listHosts_sorted_run w c Hlaw Hc) as (Hrun & Hperm & Hsorted).
  split; [exact Hrun|]. split; [exact Hperm|]. split; [exact Hsorted|].
  assert (Hs : StronglySorted alias_lt hosts).
  { apply Sort_strict. now apply (hostsOf_NoDup (Hosts c)). }
  intros Habove.
  assert (Hb : forall h, h ∈ hosts -> String.length (Alias h) <= maxAlias)
    by (intros h Hh; now apply keys_bounded).
  clearbody hosts maxAlias. clear Hrun Hperm Hsorted.
  induction Hs as [|h hosts Hs IH Hh]; simpl; constructor.
  - apply IH.
    + simpl in Habove. now inversion Habove.
    + intros h' Hh'. apply Hb. now right.
  - apply Forall_map. simpl in Habove. inversion Habove as [|? ? _ Hrest]; subst.
    apply Forall_map in Hrest.
    rewrite Forall_forall in Hh, Hrest |- *. intros h' Hh'.
    rewrite !fmtS_pad by (apply Hb; (now left) || (now right)).
    apply pad_keeps_order; [now apply Hrest | now apply Hh].
Qed.

(** C6, as the code has it.  On a table that is not empty, [maxAlias]
    is the byte length of a longest alias.  Each alias is rendered
    followed by spaces, never preceded by them, until the field has
    [maxAlias] runes; nothing is cut.  The rendered field is therefore
    [maxAlias] bytes long whenever the alias is made of ASCII bytes. *)
Theorem list_pads_alias (w : World) (c : configV8) :
  rangeLawful -> config w = Some c -> Hosts c <> ∅ ->
  let maxAlias := maxAliasOf (map fst (map_to_list (Hosts c))) in
  let hosts := sort.Sort byAlias_Less (hostsOf (map_to_list (Hosts c))) in
  (exists k, is_Some (Hosts c !! k) /\ String.length k = maxAlias)
  /\ (forall k, is_Some (Hosts c !! k) -> String.length k <= maxAlias)
  /\ listHosts w
     = Return tt (mkWorld (config w) (writable w)
                    (console w ++ map (padAlias maxAlias) hosts))
  /\ Permutation (map Alias hosts) (map fst (map_to_list (Hosts c)))
  /\ Forall (fun h =>
               Alias (padAlias maxAlias h)
               = Alias h +:+ fmt.spaces (maxAlias - utf8.RuneCountInString (Alias h))
               /\ utf8.RuneCountInString (Alias (padAlias maxAlias h)) = maxAlias
               /\ (ascii7 (Alias h) = true ->
                   String.length (Alias (padAlias maxAlias h)) = maxAlias))
            hosts.
Proof.
  intros Hlaw Hc Hne maxAlias hosts.
  assert (Hkeys : forall k, k ∈ map fst (map_to_list (Hosts c))
                            <-> is_Some (Hosts c !! k)).
  { intros k. rewrite list_elem_of_fmap. split.
    - intros ((k' & v) & -> & Hin). apply elem_of_map_to_list in Hin.
      simpl. now exists v.
    - intros (v & Hv). exists (k, v). split; [reflexivity|].
      now apply elem_of_map_to_list. }
  split.
  { unfold maxAlias. rewrite maxAliasOf_longest.
    destruct (longest_attained (map fst (map_to_list (Hosts c))))
      as (k & Hin & Hlen).
    - intros Hnil. apply Hne. apply map_to_list_empty_iff.
      now destruct (map_to_list (Hosts c)).
    - exists k. split; [now apply Hkeys | exact Hlen]. }
  split.
  { intros k Hk. unfold maxAlias. rewrite maxAliasOf_longest.
    apply longest_bound. now apply Hkeys. }
  destruct (listHosts_sorted_run w c Hlaw Hc) as (Hrun & Hperm & _).
  split; [exact Hrun|]. split; [exact Hperm|].
  rewrite Forall_forall. intros h Hh.
  assert (Hle : String.length (Alias h) <= maxAlias) by now apply keys_bounded.
  split; [now apply padAlias_alias|].
  split.
  - unfold padAlias. simpl. now apply fmtS_pad_runes.
  - intros Hascii. unfold padAlias. simpl.
    rewrite fmtS_pad_length by exact Hle.
    rewrite (runes_ascii7 _ Hascii). lia.
Qed.

End ListClaims.

Lemma sample_lawful : rangeLawful (H := Sample.env).
Proof. intros k m. reflexivity. Defined.

Lemma sample_rev_lawful : rangeLawful (H := Sample.envRev).
Proof. intros k m. symmetry. apply Permutation_rev. Defined.

Lemma list_sorted_by_alias_witness :
  listHosts (H := Sample.envRev) (Sample.worldOf Sample.abHosts)
  = Return tt
      (mkWorld (Some (mkConfigV8 "8" Sample.abHosts)) true
         (map (padAlias 2)
            (sort.Sort byAlias_Less (hostsOf (map_to_list Sample.abHosts)))))
  /\ StronglySorted str_lt
       (map hostMessage.Alias
          (sort.Sort byAlias_Less (hostsOf (map_to_list Sample.abHosts)))).
Proof.
  destruct (list_sorted_by_alias (H := Sample.envRev) (Sample.worldOf Sample.abHosts)
              (mkConfigV8 "8" Sample.abHosts) sample_rev_lawful eq_refl)
    as (Hrun & _ & Hsorted & _).
  split; [exact Hrun | exact Hsorted].
Defined.

(** C6 as stated fails: with the aliases "a" and "bb" the first alias is
    printed as "a" followed by a space, not as a space followed by "a";
    and an alias of two bytes that form one rune is printed three bytes
    long although the longest alias has two. *)
Lemma list_pads_alias_counterexample :
  map hostMessage.Alias
    (console (world (listHosts (H := Sample.env) (Sample.worldOf Sample.abHosts))))
  = ["a "; "bb"]%string
  /\ ~ In " a"%string
       (map hostMessage.Alias
          (console (world (listHosts (H := Sample.env) (Sample.worldOf Sample.abHosts)))))
  /\ map (fun k => String.length (fst k)) (map_to_list Sample.accentHosts) = [2]
  /\ map (fun h => String.length (hostMessage.Alias h))
       (console (world (listHosts (H := Sample.env) (Sample.worldOf Sample.accentHosts))))
     = [3].
Proof.
  split; [vm_compute; reflexivity|].
  split; [vm_compute; intuition discriminate|].
  split; vm_compute; reflexivity.
Qed.

Lemma list_pads_alias_witness :
  Sample.abHosts <> ∅
  /\ listHosts (H := Sample.env) (Sample.worldOf Sample.abHosts)
     = Return tt
         (mkWorld (Some (mkConfigV8 "8" Sample.abHosts)) true
            (map (padAlias (maxAliasOf (map fst (map_to_list Sample.abHosts))))
               (sort.Sort byAlias_Less (hostsOf (map_to_list Sample.abHosts)))))
  /\ exists k, is_Some (Sample.abHosts !! k)
               /\ String.length k = maxAliasOf (map fst (map_to_list Sample.abHosts)).
Proof.
  assert (Hne : Sample.abHosts <> ∅).
  { intros Heq. apply (f_equal (fun m => m !! "a"%string)) in Heq.
    vm_compute in Heq. discriminate. }
  split; [exact Hne|].
  destruct (list_pads_alias (H := Sample.env) (Sample.worldOf Sample.abHosts)
              (mkConfigV8 "8" Sample.abHosts) sample_lawful eq_refl Hne)
    as (Hmax & _ & Hrun & _).
  split; [exact Hrun | exact Hmax].
Defined.

(** ** add followed by list *)

Section AddThenList.
Context `{Externals}.

#[local] Abbreviation Alias := hostMessage.Alias.




End AddThenList.



(** ** Claims about the renderings of a message *)

Section Renderings.
Context `{Externals}.


End Renderings.

Section TextRendering.
Context `{Externals}.


(** C10. The text of a list message is the alias and URL fields,
    followed by the access-key, secret-key and API fields exactly when
    the access key or the secret key is not empty.  Hence an empty API
    is still printed, as its two leading spaces, next to a credential,
    and an API that is not empty is left out when both credentials are
    empty. *)
Theorem list_text_credentials (h : hostMessage.t) :
  hostMessage.op h = "list"%string ->
  (hostMessage.AccessKey h <> EmptyString \/ hostMessage.SecretKey h <> EmptyString ->
   hostMessage.String h = listBase h +:+ listCredentials h)
  /\ (hostMessage.AccessKey h = EmptyString /\ hostMessage.SecretKey h = EmptyString ->
      hostMessage.String h = listBase h)
  /\ (hostMessage.API h = EmptyString ->
      listCredentials h
      = Colorize "AccessKey"
          ("  " +:+ fmt.fmtS true (Some 20) (Some 20) (hostMessage.AccessKey h))
        +:+ Colorize "SecretKey"
              ("  " +:+ fmt.fmtS true (Some 40) (Some 40) (hostMessage.SecretKey h))
        +:+ Colorize "API" "  ").
Proof.
  intros Hop. unfold hostMessage.String. rewrite Hop.
  cbn [String.eqb Ascii.eqb Bool.eqb]. cbv zeta.
  unfold listBase, listCredentials.
  change (fmt.fmtS false None None (hostMessage.Alias h)) with (hostMessage.Alias h).
  split; [|split].
  - intros Hcred.
    assert (Hb : negb (String.eqb (hostMessage.AccessKey h) EmptyString)
                 || negb (String.eqb (hostMessage.SecretKey h) EmptyString) = true).
    { destruct (String.eqb_spec (hostMessage.AccessKey h) EmptyString);
        destruct (String.eqb_spec (hostMessage.SecretKey h) EmptyString);
        try reflexivity. tauto. }
    rewrite Hb. now rewrite !str_app_assoc.
  - intros [Hak Hsk]. rewrite Hak, Hsk. reflexivity.
  - intros Hapi. rewrite Hapi. reflexivity.
Qed.

End TextRendering.

Lemma list_text_credentials_witness :
  hostMessage.String (H := Sample.env)
    (hostMessage.mk "list" "" "s3" "https://s3.amazonaws.com" "" "" "S3v4")
  = "s3: https://s3.amazonaws.com      "%string
  /\ hostMessage.String (H := Sample.env)
       (hostMessage.mk "list" "" "s3" "https://s3.amazonaws.com" "AKIAEXAMPLE" "" "")
     = ("s3: https://s3.amazonaws.com        AKIAEXAMPLE         "
        +:+ "                                            ")%string.
Proof.
  split.
  - destruct (list_text_credentials (H := Sample.env)
                (hostMessage.mk "list" "" "s3" "https://s3.amazonaws.com" "" ""
                   "S3v4") eq_refl) as (_ & Hnone & _).
    rewrite Hnone by (split; reflexivity). vm_compute. reflexivity.
  - destruct (list_text_credentials (H := Sample.env)
                (hostMessage.mk "list" "" "s3" "https://s3.amazonaws.com"
                   "AKIAEXAMPLE" "" "") eq_refl) as (Hsome & _ & _).
    rewrite Hsome by (left; discriminate). vm_compute. reflexivity.
Defined.

(** ** strings.TrimSpace on a word between white space *)

Section TrimFacts.

Lemma solidByte_spec (c : ascii) :
  solidByte c = true ->
  (N_of_ascii c < 128)%N /\ unicode.IsSpace (N_of_ascii c) = false.
Proof.
  unfold solidByte. rewrite andb_true_iff, N.ltb_lt, negb_true_iff. tauto.
Qed.

Ltac each_white H :=
  unfold whiteSpace in H; cbn [map] in H;
  repeat (apply elem_of_cons in H; destruct H as [-> | H]);
  [.. | now apply elem_of_nil in H].

Lemma white_rune (e : string) :
  e ∈ whiteSpace ->
  unicode.IsSpace (runeOf e) = true /\ 1 <= String.length e.
Proof. intros He. each_white He; vm_compute; split; (reflexivity || lia). Qed.

(** The first rune of a text that starts with white space. *)
Lemma range_white (e rest : string) :
  e ∈ whiteSpace ->
  utf8.rangeFrom 0 (e +:+ rest) = (runeOf e, String.length e) :: utf8.rangeFrom 0 rest.
Proof. intros He. each_white He; reflexivity. Qed.

Lemma indexFunc_blank (l : list string) (c : ascii) (t : string) (start : nat) :
  Forall (fun e => e ∈ whiteSpace) l -> solidByte c = true ->
  strings.indexFunc_loop unicode.IsSpace false start
    (utf8.rangeFrom 0 (blank l +:+ String.String c t))
  = Z.of_nat (start + String.length (blank l)).
Proof.
  intros Hl Hc. apply solidByte_spec in Hc. destruct Hc as [Hc Hns].
  revert start. induction Hl as [|e l He Hl IH]; intros start.
  - cbn [blank fold_right]. rewrite str_app_nil_l. cbn [utf8.rangeFrom].
    rewrite Decode_ascii by exact Hc. cbn [strings.indexFunc_loop].
    rewrite Hns. simpl. f_equal. lia.
  - cbn [blank fold_right]. fold (blank l). rewrite str_app_assoc.
    rewrite range_white by exact He. cbn [strings.indexFunc_loop].
    destruct (white_rune e He) as [Hsp _]. rewrite Hsp. cbn [Bool.eqb].
    rewrite IH. rewrite str_length_app. f_equal. lia.
Qed.

Lemma TrimLeft_blank (l : list string) (c : ascii) (t : string) :
  Forall (fun e => e ∈ whiteSpace) l -> solidByte c = true ->
  strings.TrimLeftFunc (blank l +:+ String.String c t) unicode.IsSpace
  = String.String c t.
Proof.
  intros Hl Hc. unfold strings.TrimLeftFunc, strings.indexFunc, utf8.runes.
  rewrite indexFunc_blank by assumption. cbn [Nat.add].
  destruct (Z.eqb_spec (Z.of_nat (String.length (blank l))) (-1)) as [Heq|_]; [lia|].
  unfold utf8.slice. rewrite Nat2Z.id.
  replace (Z.to_nat (Z.of_nat (String.length (blank l +:+ String.String c t))
                     - Z.of_nat (String.length (blank l))))
    with (String.length (String.String c t))
    by (rewrite str_length_app; lia).
  apply substring_suffix.
Qed.

Lemma get_app_r (t u : string) (k : nat) :
  String.get (String.length t + k) (t +:+ u) = String.get k u.
Proof. rewrite Nat.add_comm. symmetry. apply append_correct2. Qed.

Lemma byteAt_app_r (t u : string) (k : nat) :
  utf8.byteAt (t +:+ u) (Z.of_nat (String.length t + k)) = utf8.byteAt u (Z.of_nat k).
Proof. unfold utf8.byteAt. now rewrite !Nat2Z.id, get_app_r. Qed.

Lemma slice_suffix (t u : string) :
  utf8.slice (t +:+ u) (Z.of_nat (String.length t))
    (Z.of_nat (String.length t + String.length u)) = u.
Proof.
  unfold utf8.slice. rewrite Nat2Z.id.
  replace (Z.to_nat (Z.of_nat (String.length t + String.length u)
                     - Z.of_nat (String.length t)))
    with (String.length u) by lia.
  apply substring_suffix.
Qed.

Lemma DecodeLast_ascii (t : string) (c : ascii) :
  (N_of_ascii c < 128)%N ->
  utf8.DecodeLastRuneInString (t +:+ String.String c EmptyString) = (N_of_ascii c, 1).
Proof.
  intros Hc. unfold utf8.DecodeLastRuneInString. cbv zeta.
  rewrite str_length_app. simpl String.length.
  destruct (Z.eqb_spec (Z.of_nat (String.length t + 1)) 0) as [Heq|_]; [lia|].
  replace (Z.of_nat (String.length t + 1) - 1)%Z
    with (Z.of_nat (String.length t + 0)) by lia.
  rewrite byteAt_app_r.
  change (utf8.byteAt (String.String c EmptyString) (Z.of_nat 0)) with (N_of_ascii c).
  unfold utf8.RuneSelf.
  destruct (N.ltb_spec (N_of_ascii c) 128); [reflexivity | lia].
Qed.

(** The last rune of a text that ends with a two-byte encoding. *)
Lemma DecodeLast_two (t : string) (b0 b1 : ascii) (r : N) :
  (128 <= N_of_ascii b1)%N -> utf8.RuneStart (N_of_ascii b0) = true ->
  utf8.DecodeRuneInString (String.String b0 (String.String b1 EmptyString)) = (r, 2) ->
  utf8.DecodeLastRuneInString
    (t +:+ String.String b0 (String.String b1 EmptyString)) = (r, 2).
Proof.
  intros H1 H0 Hd. unfold utf8.DecodeLastRuneInString. cbv zeta.
  set (u := String.String b0 (String.String b1 EmptyString)) in *.
  rewrite str_length_app. change (String.length u) with 2.
  destruct (Z.eqb_spec (Z.of_nat (String.length t + 2)) 0) as [Heq|_]; [lia|].
  replace (Z.of_nat (String.length t + 2) - 1)%Z
    with (Z.of_nat (String.length t + 1)) by lia.
  rewrite byteAt_app_r. change (utf8.byteAt u (Z.of_nat 1)) with (N_of_ascii b1).
  unfold utf8.RuneSelf.
  destruct (N.ltb_spec (N_of_ascii b1) 128) as [Hlt|_]; [lia|].
  unfold utf8.UTFMax. cbn [utf8.scanBack].
  replace (Z.of_nat (String.length t + 1) - 1)%Z
    with (Z.of_nat (String.length t + 0)) by lia.
  destruct (Z.ltb_spec (Z.of_nat (String.length t + 0))
              (Z.max 0 (Z.of_nat (String.length t + 2) - Z.of_nat 4))) as [Hlt|_];
    [lia|].
  rewrite byteAt_app_r. change (utf8.byteAt u (Z.of_nat 0)) with (N_of_ascii b0).
  rewrite H0.
  destruct (Z.ltb_spec (Z.of_nat (String.length t + 0)) 0) as [Hlt|_]; [lia|].
  rewrite Nat.add_0_r. change 2 with (String.length u) at 2.
  rewrite slice_suffix, Hd. cbn [snd].
  destruct (Z.eqb_spec (Z.of_nat (String.length t) + Z.of_nat 2)
              (Z.of_nat (String.length t + String.length u))) as [_|Hne];
    [reflexivity | change (String.length u) with 2 in Hne; lia].
Qed.

(** The last rune of a text that ends with a three-byte encoding. *)
Lemma DecodeLast_three (t : string) (b0 b1 b2 : ascii) (r : N) :
  (128 <= N_of_ascii b2)%N -> utf8.RuneStart (N_of_ascii b1) = false ->
  utf8.RuneStart (N_of_ascii b0) = true ->
  utf8.DecodeRuneInString
    (String.String b0 (String.String b1 (String.String b2 EmptyString))) = (r, 3) ->
  utf8.DecodeLastRuneInString
    (t +:+ String.String b0 (String.String b1 (String.String b2 EmptyString)))
  = (r, 3).
Proof.
  intros H2 H1 H0 Hd. unfold utf8.DecodeLastRuneInString. cbv zeta.
  set (u := String.String b0 (String.String b1 (String.String b2 EmptyString))) in *.
  rewrite str_length_app. change (String.length u) with 3.
  destruct (Z.eqb_spec (Z.of_nat (String.length t + 3)) 0) as [Heq|_]; [lia|].
  replace (Z.of_nat (String.length t + 3) - 1)%Z
    with (Z.of_nat (String.length t + 2)) by lia.
  rewrite byteAt_app_r. change (utf8.byteAt u (Z.of_nat 2)) with (N_of_ascii b2).
  unfold utf8.RuneSelf.
  destruct (N.ltb_spec (N_of_ascii b2) 128) as [Hlt|_]; [lia|].
  unfold utf8.UTFMax. cbn [utf8.scanBack].
  replace (Z.of_nat (String.length t + 2) - 1)%Z
    with (Z.of_nat (String.length t + 1)) by lia.
  destruct (Z.ltb_spec (Z.of_nat (String.length t + 1))
              (Z.max 0 (Z.of_nat (String.length t + 3) - Z.of_nat 4))) as [Hlt|_];
    [lia|].
  rewrite byteAt_app_r. change (utf8.byteAt u (Z.of_nat 1)) with (N_of_ascii b1).
  rewrite H1.
  replace (Z.of_nat (String.length t + 1) - 1)%Z
    with (Z.of_nat (String.length t + 0)) by lia.
  destruct (Z.ltb_spec (Z.of_nat (String.length t + 0))
              (Z.max 0 (Z.of_nat (String.length t + 3) - Z.of_nat 4))) as [Hlt|_];
    [lia|].
  rewrite byteAt_app_r. change (utf8.byteAt u (Z.of_nat 0)) with (N_of_ascii b0).
  rewrite H0.
  destruct (Z.ltb_spec (Z.of_nat (String.length t + 0)) 0) as [Hlt|_]; [lia|].
  rewrite Nat.add_0_r. change 3 with (String.length u) at 2.
  rewrite slice_suffix, Hd. cbn [snd].
  destruct (Z.eqb_spec (Z.of_nat (String.length t) + Z.of_nat 3)
              (Z.of_nat (String.length t + String.length u))) as [_|Hne];
    [reflexivity | change (String.length u) with 3 in Hne; lia].
Qed.

Lemma DecodeLast_white (t e : string) :
  e ∈ whiteSpace ->
  utf8.DecodeLastRuneInString (t +:+ e) = (runeOf e, String.length e).
Proof.
  intros He. each_white He;
    first [ apply DecodeLast_ascii; vm_compute; reflexivity
          | apply DecodeLast_two; vm_compute; (reflexivity || discriminate)
          | apply DecodeLast_three; vm_compute; (reflexivity || discriminate) ].
Qed.

Lemma blank_app (l1 l2 : list string) : blank (l1 ++ l2) = blank l1 +:+ blank l2.
Proof.
  induction l1 as [|e l1 IH]; [reflexivity|].
  cbn [blank app fold_right]. fold (blank (l1 ++ l2)) (blank l1).
  now rewrite IH, str_app_assoc.
Qed.

Lemma blank_snoc (l : list string) (e : string) : blank (l ++ [e]) = blank l +:+ e.
Proof. rewrite blank_app. cbn [blank fold_right]. now rewrite str_app_nil_r. Qed.

Lemma slice_prefix (t u : string) :
  utf8.slice (t +:+ u) 0 (Z.of_nat (String.length t)) = t.
Proof.
  unfold utf8.slice. change (Z.to_nat 0) with 0.
  replace (Z.to_nat (Z.of_nat (String.length t) - 0)) with (String.length t) by lia.
  apply substring_prefix.
Qed.

(** The loop of [lastIndexFunc] walks back over the white space [r1]
    and stops at the last byte of the word before it. *)
Lemma lastIndexFunc_blank (v : string) (c : ascii) (r1 : list string) :
  solidByte c = true -> Forall (fun e => e ∈ whiteSpace) r1 ->
  forall (r2 : string) (fuel : nat),
    String.length (blank r1) < fuel ->
    strings.lastIndexFunc_loop unicode.IsSpace false fuel
      ((v +:+ String.String c EmptyString) +:+ blank r1 +:+ r2)
      (Z.of_nat (String.length ((v +:+ String.String c EmptyString) +:+ blank r1)))
    = Z.of_nat (String.length v).
Proof.
  intros Hc Hr1. apply solidByte_spec in Hc. destruct Hc as [Hc Hns].
  set (u := v +:+ String.String c EmptyString).
  assert (Hu : String.length u = String.length v + 1)
    by (unfold u; rewrite str_length_app; reflexivity).
  induction r1 as [|e r1 IH] using rev_ind; intros r2 fuel Hfuel.
  - cbn [blank fold_right] in *. rewrite str_app_nil_l, str_app_nil_r.
    destruct fuel as [|fuel]; [simpl in Hfuel; lia|]. cbn [strings.lastIndexFunc_loop].
    destruct (Z.leb_spec (Z.of_nat (String.length u)) 0) as [Hle|_]; [lia|].
    rewrite slice_prefix. unfold u.
    rewrite DecodeLast_ascii by exact Hc. cbn [fst snd]. rewrite Hns.
    cbn [Bool.eqb]. fold u. lia.
  - apply Forall_app in Hr1. destruct Hr1 as [Hr1 He].
    apply Forall_cons in He. destruct He as [He _].
    destruct (white_rune e He) as [Hsp Hlen].
    rewrite blank_snoc in *.
    rewrite str_length_app in Hfuel.
    destruct fuel as [|fuel]; [lia|]. cbn [strings.lastIndexFunc_loop].
    destruct (Z.leb_spec (Z.of_nat (String.length (u +:+ blank r1 +:+ e))) 0)
      as [Hle|_]; [rewrite !str_length_app in Hle; lia|].
    replace (u +:+ (blank r1 +:+ e) +:+ r2) with ((u +:+ blank r1 +:+ e) +:+ r2)
      by (now rewrite !str_app_assoc).
    rewrite slice_prefix.
    replace (u +:+ blank r1 +:+ e) with ((u +:+ blank r1) +:+ e)
      by (now rewrite !str_app_assoc).
    rewrite DecodeLast_white by exact He. cbn [fst snd]. rewrite Hsp. cbn [Bool.eqb].
    replace (Z.of_nat (String.length ((u +:+ blank r1) +:+ e))
             - Z.of_nat (String.length e))%Z
      with (Z.of_nat (String.length (u +:+ blank r1)))
      by (rewrite (str_length_app (u +:+ blank r1) e); lia).
    replace (((u +:+ blank r1) +:+ e) +:+ r2) with (u +:+ blank r1 +:+ (e +:+ r2))
      by (now rewrite !str_app_assoc).
    apply IH; [exact Hr1 | lia].
Qed.

Lemma TrimRight_blank (v : string) (c : ascii) (r : list string) :
  solidByte c = true -> Forall (fun e => e ∈ whiteSpace) r ->
  strings.TrimRightFunc ((v +:+ String.String c EmptyString) +:+ blank r)
    unicode.IsSpace
  = v +:+ String.String c EmptyString.
Proof.
  intros Hc Hr. unfold strings.TrimRightFunc, strings.lastIndexFunc.
  set (u := v +:+ String.String c EmptyString).
  assert (Hu : String.length u = String.length v + 1)
    by (unfold u; rewrite str_length_app; reflexivity).
  pose proof (lastIndexFunc_blank v c r Hc Hr EmptyString
                (String.length (u +:+ blank r))) as Hloop.
  rewrite str_app_nil_r in Hloop. fold u in Hloop.
  rewrite Hloop by (rewrite str_length_app; lia). cbv zeta.
  apply solidByte_spec in Hc. destruct Hc as [Hc _].
  assert (Hbyte : utf8.byteAt (u +:+ blank r) (Z.of_nat (String.length v))
                  = N_of_ascii c).
  { unfold utf8.byteAt. rewrite Nat2Z.id.
    rewrite <- append_correct1 by lia. unfold u.
    rewrite <- (Nat.add_0_r (String.length v)). now rewrite get_app_r. }
  rewrite Hbyte.
  destruct (N.leb_spec utf8.RuneSelf (N_of_ascii c)) as [Hge|_];
    [unfold utf8.RuneSelf in Hge; lia|].
  rewrite andb_false_r.
  replace (Z.of_nat (String.length v) + 1)%Z with (Z.of_nat (String.length u)) by lia.
  apply slice_prefix.
Qed.

(** A word that begins and ends with a solid byte, put between white
    space of any kind, is what [TrimSpace] returns. *)
Theorem TrimSpace_word (l r : list string) (c0 c1 : ascii) (t t' : string) :
  Forall (fun e => e ∈ whiteSpace) l -> Forall (fun e => e ∈ whiteSpace) r ->
  solidByte c0 = true -> solidByte c1 = true ->
  String.String c0 t = t' +:+ String.String c1 EmptyString ->
  strings.TrimSpace (blank l +:+ String.String c0 t +:+ blank r) = String.String c0 t.
Proof.
  intros Hl Hr H0 H1 Hword. unfold strings.TrimSpace, strings.TrimFunc.
  rewrite str_app_cons. rewrite TrimLeft_blank by assumption.
  rewrite <- str_app_cons, Hword.
  now apply TrimRight_blank.
Qed.

End TrimFacts.

(** ** The verb *)

Section Verb.
Context `{Externals}.

(** Only the trimmed first argument and the arguments after it reach
    the checks and the dispatch. *)
Lemma main_depends_on_trimmed (cmd cmd' : string) (rest : list string) (w : World) :
  strings.TrimSpace cmd = strings.TrimSpace cmd' ->
  mainConfigHost (cmd :: rest) w = mainConfigHost (cmd' :: rest) w.
Proof.
  intros Heq.
  unfold mainConfigHost, checkConfigHostSyntax, checkConfigHostAddSyntax,
    checkConfigHostRemoveSyntax.
  change (Args.First (cmd :: rest)) with cmd.
  change (Args.First (cmd' :: rest)) with cmd'.
  change (Args.Tail (cmd :: rest)) with (Args.Tail (cmd' :: rest)).
  change (Args.Present (cmd :: rest)) with (Args.Present (cmd' :: rest)).
  rewrite Heq. reflexivity.
Qed.

Lemma verb_word (v : string) :
  v ∈ verbs ->
  exists c0 t c1 t',
    v = String.String c0 t /\ v = t' +:+ String.String c1 EmptyString
    /\ solidByte c0 = true /\ solidByte c1 = true.
Proof.
  unfold verbs. rewrite !elem_of_cons, elem_of_nil.
  intros [-> | [-> | [-> | []]]].
  - exists "a"%char, "dd"%string, "d"%char, "ad"%string. repeat split.
  - exists "r"%char, "emove"%string, "e"%char, "remov"%string. repeat split.
  - exists "l"%char, "ist"%string, "t"%char, "lis"%string. repeat split.
Qed.

(** C9. The first argument is matched after [strings.TrimSpace]: a verb
    between white space, of ASCII or of any other rune [unicode.IsSpace]
    accepts, is trimmed to the verb and runs the same command as it, the
    three verbs dispatch to add, remove and list once the syntax check
    has passed, and every first argument whose trimmed form is not
    exactly one of the three verbs, a verb in other letter case
    included, ends in the help text with exit code 1. *)
Theorem verb_is_trimmed (cmd : string) (rest : list string) (w : World) :
  (forall v, v ∈ verbs ->
     (forall l r : list string,
        Forall (fun e => e ∈ whiteSpace) l -> Forall (fun e => e ∈ whiteSpace) r ->
        strings.TrimSpace (blank l +:+ v +:+ blank r) = v)
     /\ (strings.TrimSpace cmd = v ->
         mainConfigHost (cmd :: rest) w = mainConfigHost (v :: rest) w))
  /\ (strings.TrimSpace cmd = "list"%string ->
      mainConfigHost (cmd :: rest) w = listHosts w)
  /\ (strings.TrimSpace cmd = "remove"%string ->
      checkConfigHostSyntax (cmd :: rest) w = Return tt w ->
      mainConfigHost (cmd :: rest) w = removeHost (Args.Get rest 0) w)
  /\ (strings.TrimSpace cmd = "add"%string ->
      checkConfigHostSyntax (cmd :: rest) w = Return tt w ->
      mainConfigHost (cmd :: rest) w
      = addHost (Args.Get rest 0)
          (hostConfigV8.mk (Args.Get rest 1) (Args.Get rest 2) (Args.Get rest 3)
             (if String.eqb (Args.Get rest 4) EmptyString then "S3v4"%string
              else Args.Get rest 4)) w)
  /\ (strings.TrimSpace cmd ∉ verbs ->
      mainConfigHost (cmd :: rest) w = Exit 1 (Help "host") w).
Proof.
  assert (Htail : Args.Tail (cmd :: rest) = rest).
  { unfold Args.Tail. destruct rest; reflexivity. }
  split; [|split; [|split; [|split]]].
  - intros v Hv. split.
    + intros l r Hl Hr.
      destruct (verb_word v Hv) as (c0 & t & c1 & t' & Hv0 & Hv1 & H0 & H1).
      rewrite Hv0 in *. now apply (TrimSpace_word l r c0 c1 t t').
    + intros Hcmd. apply main_depends_on_trimmed. rewrite Hcmd.
      unfold verbs in Hv. rewrite !elem_of_cons, elem_of_nil in Hv.
      destruct Hv as [-> | [-> | [-> | []]]]; vm_compute; reflexivity.
  - intros Hv.
    rewrite (main_after_check _ w (check_list (cmd :: rest) w Hv)).
    cbv zeta. change (Args.First (cmd :: rest)) with cmd. rewrite Hv. reflexivity.
  - intros Hv Hcheck. rewrite (main_after_check _ w Hcheck).
    cbv zeta. change (Args.First (cmd :: rest)) with cmd. rewrite Hv, Htail.
    reflexivity.
  - intros Hv Hcheck. rewrite (main_after_check _ w Hcheck).
    cbv zeta. change (Args.First (cmd :: rest)) with cmd. rewrite Hv, Htail.
    reflexivity.
  - intros Hv. apply main_exits_with_check. unfold checkConfigHostSyntax.
    change (Args.First (cmd :: rest)) with cmd.
    unfold verbs in Hv. rewrite !elem_of_cons, elem_of_nil in Hv.
    destruct (String.eqb_spec (strings.TrimSpace cmd) "add"); [tauto|].
    destruct (String.eqb_spec (strings.TrimSpace cmd) "remove"); [tauto|].
    destruct (String.eqb_spec (strings.TrimSpace cmd) "list"); [tauto|].
    reflexivity.
Qed.

End Verb.

(** The example of the claim, white space beyond ASCII, and letter case. *)
Lemma verb_is_trimmed_witness :
  mainConfigHost (H := Sample.env) [" list "%string] (Sample.worldOf Sample.abHosts)
  = mainConfigHost (H := Sample.env) ["list"%string] (Sample.worldOf Sample.abHosts)
  /\ strings.TrimSpace
       (bytes [227; 128; 128] +:+ "list" +:+ bytes [194; 160; 9; 32])%N
     = "list"%string
  /\ mainConfigHost (H := Sample.env) ["List"%string] Sample.emptyWorld
     = Exit 1 (Help "host") Sample.emptyWorld
  /\ mainConfigHost (H := Sample.env) ["ADD"; "s3"; "https://s3.amazonaws.com";
                                        "AKIAEXAMPLE"; "SECRETEXAMPLE"]%string
       Sample.emptyWorld
     = Exit 1 (Help "host") Sample.emptyWorld.
Proof.
  split.
  - destruct (verb_is_trimmed (H := Sample.env) " list " []
                (Sample.worldOf Sample.abHosts)) as (Hverb & _).
    destruct (Hverb "list"%string) as (_ & Hsame).
    + unfold verbs. rewrite !elem_of_cons. tauto.
    + apply Hsame. vm_compute. reflexivity.
  - repeat split; vm_compute; reflexivity.
Defined.

(** * Further properties of the commands *)

(** ** Every path of the three operations *)

Section Runs.
Context `{Externals}.

Lemma addHost_run (alias : string) (cfg : hostConfigV8.t) (w : World) :
  addHost alias cfg w
  = match config w with
    | None =>
      Exit 1 (Fatal loadError
                ("Unable to load config ‘" +:+ mustGetMcConfigPath +:+ "’.")) w
    | Some c =>
      if writable w
      then Return tt (mkWorld (Some (mkConfigV8 (Version c) (<[alias := cfg]> (Hosts c))))
                        true (console w ++ [addMessage alias cfg]))
      else Exit 1 (Fatal (saveError alias)
                     ("Unable to update hosts in config version ‘"
                        +:+ mustGetMcConfigPath +:+ "’.")) w
    end.
Proof.
  unfold addHost. run_cmd. destruct (config w) as [c|]; simpl; [|reflexivity].
  destruct (writable w) eqn:Hw; simpl; [rewrite ?Hw|]; reflexivity.
Qed.

Lemma removeHost_run (alias : string) (w : World) :
  removeHost alias w
  = match config w with
    | None =>
      Exit 1 (Fatal loadError
                ("Unable to load config version ‘" +:+ globalMCConfigVersion +:+ "’.")) w
    | Some c =>
      if writable w
      then Return tt (mkWorld (Some (mkConfigV8 (Version c) (delete alias (Hosts c))))
                        true (console w ++ [removeMessage alias]))
      else Exit 1 (Fatal (saveError alias)
                     ("Unable to save deleted hosts in config version ‘"
                        +:+ globalMCConfigVersion +:+ "’.")) w
    end.
Proof.
  unfold removeHost. run_cmd. destruct (config w) as [c|]; simpl; [|reflexivity].
  destruct (writable w) eqn:Hw; simpl; [rewrite ?Hw|]; reflexivity.
Qed.

Lemma listHosts_run (w : World) :
  listHosts w
  = match config w with
    | None =>
      Exit 1 (Fatal loadError
                ("Unable to load config version ‘" +:+ globalMCConfigVersion +:+ "’.")) w
    | Some c =>
      Return tt (mkWorld (config w) (writable w)
                   (console w ++
                    map (padAlias (maxAliasOf (map fst (rangeHosts 0 (Hosts c)))))
                      (sort.Sort byAlias_Less (hostsOf (rangeHosts 1 (Hosts c))))))
    end.
Proof.
  destruct (config w) as [c|] eqn:Hc.
  - rewrite (listHosts_ok w c Hc). now rewrite Hc.
  - unfold listHosts. run_cmd. rewrite Hc. reflexivity.
Qed.

(** The syntax check of add, as one decision list. *)
Lemma checkAdd_run (args : list string) (w : World) :
  checkConfigHostAddSyntax args w
  = (let tl := Args.Tail args in
     if (length tl <? 4)%nat || (5 <? length tl)%nat
     then Exit 1 (Fatal (Trace errInvalidArgument tl) addCountMessage) w
     else if negb (isValidAlias (Args.Get tl 0))
     then Exit 1 (Fatal (Trace errDummy [Args.Get tl 0])
                    ("Invalid alias ‘" +:+ Args.Get tl 0 +:+ "’.")) w
     else if negb (isValidHostURL (Args.Get tl 1))
     then Exit 1 (Fatal (Trace errDummy [Args.Get tl 1])
                    ("Invalid URL ‘" +:+ Args.Get tl 1 +:+ "’.")) w
     else if negb (isValidAccessKey (Args.Get tl 2))
     then Exit 1 (Fatal (Trace errInvalidArgument [Args.Get tl 2])
                    ("Invalid access key ‘" +:+ Args.Get tl 2 +:+ "’.")) w
     else if negb (isValidSecretKey (Args.Get tl 3))
     then Exit 1 (Fatal (Trace errInvalidArgument [Args.Get tl 3])
                    ("Invalid secret key ‘" +:+ Args.Get tl 3 +:+ "’.")) w
     else if negb (String.eqb (Args.Get tl 4) EmptyString)
             && negb (isValidAPI (Args.Get tl 4))
     then Exit 1 (Fatal (Trace errInvalidArgument [Args.Get tl 4])
                    "Unrecognized API signature. Valid options are ‘[S3v4, S3v2]’.") w
     else Return tt w).
Proof.
  unfold checkConfigHostAddSyntax. cbv zeta. unfold bind, when, fatalIf, ret.
  repeat match goal with
         | |- context [if ?b then _ else _] => destruct b
         end; reflexivity.
Qed.

Lemma checkRemove_run (args : list string) (w : World) :
  checkConfigHostRemoveSyntax args w
  = (let tl := Args.Tail args in
     if negb (length tl =? 1)%nat
     then Exit 1 (Fatal (Trace errInvalidArgument tl) removeCountMessage) w
     else if negb (isValidAlias (Args.Get tl 0))
     then Exit 1 (Fatal (Trace errDummy [Args.Get tl 0])
                    ("Invalid alias ‘" +:+ Args.Get tl 0 +:+ "’.")) w
     else Return tt w).
Proof.
  unfold checkConfigHostRemoveSyntax. cbv zeta. unfold bind, when, fatalIf, ret.
  repeat match goal with
         | |- context [if ?b then _ else _] => destruct b
         end; reflexivity.
Qed.

(** The syntax check never changes the world: it lets the command go on
    or ends it with exit code 1. *)
Lemma check_outcome (args : list string) (w : World) :
  checkConfigHostSyntax args w = Return tt w
  \/ exists r, checkConfigHostSyntax args w = Exit 1 r w.
Proof.
  remember (checkConfigHostSyntax args w) as o eqn:E.
  unfold checkConfigHostSyntax in E. unfold bind at 1 in E. unfold when in E.
  destruct (Args.Present args); cbn [negb] in E;
    [|right; eexists; exact E].
  unfold ret in E. cbv zeta in E.
  destruct (String.eqb _ "add").
  { rewrite checkAdd_run in E. cbv zeta in E.
    repeat match type of E with
           | context [if ?b then _ else _] => destruct b
           end; (now left) || (right; eexists; exact E). }
  destruct (String.eqb _ "remove").
  { rewrite checkRemove_run in E. cbv zeta in E.
    repeat match type of E with
           | context [if ?b then _ else _] => destruct b
           end; (now left) || (right; eexists; exact E). }
  destruct (String.eqb _ "list"); [now left | right; eexists; exact E].
Qed.

(** What the command does for each verb, the check included. *)
Lemma main_add (args : list string) (w : World) :
  strings.TrimSpace (Args.First args) = "add"%string ->
  mainConfigHost args w
  = match checkConfigHostAddSyntax args w with
    | Return _ w' => addHost (Args.Get (Args.Tail args) 0) (hostOfArgs (Args.Tail args)) w'
    | Exit code r w' => Exit code r w'
    end.
Proof.
  intros Hv. unfold mainConfigHost. unfold bind at 1.
  rewrite (check_add args w Hv). cbv zeta. rewrite Hv. reflexivity.
Qed.

Lemma main_remove (args : list string) (w : World) :
  strings.TrimSpace (Args.First args) = "remove"%string ->
  mainConfigHost args w
  = match checkConfigHostRemoveSyntax args w with
    | Return _ w' => removeHost (Args.Get (Args.Tail args) 0) w'
    | Exit code r w' => Exit code r w'
    end.
Proof.
  intros Hv. unfold mainConfigHost. unfold bind at 1.
  rewrite (check_remove args w Hv). cbv zeta. rewrite Hv. reflexivity.
Qed.

Lemma main_list (args : list string) (w : World) :
  strings.TrimSpace (Args.First args) = "list"%string ->
  mainConfigHost args w = listHosts w.
Proof.
  intros Hv. unfold mainConfigHost. unfold bind at 1.
  rewrite (check_list args w Hv). cbv zeta. rewrite Hv. reflexivity.
Qed.

Lemma main_help (args : list string) (w : World) :
  strings.TrimSpace (Args.First args) ∉ verbs ->
  mainConfigHost args w = Exit 1 (Help "host") w.
Proof.
  intros Hv. apply main_exits_with_check. unfold checkConfigHostSyntax.
  unfold bind, when. destruct (Args.Present args); cbn [negb]; [|reflexivity].
  unfold ret. cbv zeta.
  destruct (String.eqb_spec (strings.TrimSpace (Args.First args)) "add") as [E|_];
    [exfalso; apply Hv; rewrite E; unfold verbs; set_solver|].
  destruct (String.eqb_spec (strings.TrimSpace (Args.First args)) "remove") as [E|_];
    [exfalso; apply Hv; rewrite E; unfold verbs; set_solver|].
  destruct (String.eqb_spec (strings.TrimSpace (Args.First args)) "list") as [E|_];
    [exfalso; apply Hv; rewrite E; unfold verbs; set_solver|].
  reflexivity.
Qed.

Lemma verb_cases (s : string) :
  s = "add"%string \/ s = "remove"%string \/ s = "list"%string \/ s ∉ verbs.
Proof.
  destruct (String.eqb_spec s "add"); [now left|].
  destruct (String.eqb_spec s "remove"); [now right; left|].
  destruct (String.eqb_spec s "list"); [now right; right; left|].
  right; right; right. unfold verbs. intros Hin.
  rewrite !elem_of_cons, elem_of_nil in Hin. intuition congruence.
Qed.

End Runs.

(** ** The command line: which runs return and which exit *)

Section CommandLineMore.
Context `{Externals}.

(** X1. The usage help of "host" is shown, with exit code 1 and nothing
    else done, exactly when there is no argument or the trimmed first
    argument is none of add, remove and list; a command with one of the
    three verbs never ends in the help. *)
Theorem help_exactly_when (args : list string) (w : World) :
  ((exists code command w', mainConfigHost args w = Exit code (Help command) w')
   <-> args = [] \/ strings.TrimSpace (Args.First args) ∉ verbs)
  /\ (args = [] \/ strings.TrimSpace (Args.First args) ∉ verbs ->
      mainConfigHost args w = Exit 1 (Help "host") w).
Proof.
  assert (Hhelp : args = [] \/ strings.TrimSpace (Args.First args) ∉ verbs ->
                  mainConfigHost args w = Exit 1 (Help "host") w).
  { intros [-> | Hv]; [reflexivity | now apply main_help]. }
  split; [|exact Hhelp]. split.
  - intros (code & command & w' & Hrun). right.
    destruct (verb_cases (strings.TrimSpace (Args.First args)))
      as [Hv | [Hv | [Hv | Hv]]]; [exfalso .. | exact Hv].
    + rewrite (main_add args w Hv), checkAdd_run in Hrun.
      cbv zeta in Hrun.
      repeat match type of Hrun with
             | context [if ?b then _ else _] => destruct b; try discriminate
             end.
      rewrite addHost_run in Hrun.
      destruct (config w); [destruct (writable w)|]; discriminate.
    + rewrite (main_remove args w Hv), checkRemove_run in Hrun.
      cbv zeta in Hrun.
      repeat match type of Hrun with
             | context [if ?b then _ else _] => destruct b; try discriminate
             end.
      rewrite removeHost_run in Hrun.
      destruct (config w); [destruct (writable w)|]; discriminate.
    + rewrite (main_list args w Hv), listHosts_run in Hrun.
      destruct (config w); discriminate.
  - intros Hv. exists 1%Z, "host"%string, w. now apply Hhelp.
Qed.

(** X2. An add with four or five arguments after the verb reports the
    first argument that fails its check, in the order alias, URL, access
    key, secret key: the message quotes the offending value, the error
    records it, and the command ends with exit code 1 in the world it
    started from, whatever the later arguments are. *)
Theorem add_reports_first_invalid (args : list string) (w : World) :
  strings.TrimSpace (Args.First args) = "add"%string ->
  length (Args.Tail args) = 4 \/ length (Args.Tail args) = 5 ->
  let alias := Args.Get (Args.Tail args) 0 in
  let url := Args.Get (Args.Tail args) 1 in
  let accessKey := Args.Get (Args.Tail args) 2 in
  let secretKey := Args.Get (Args.Tail args) 3 in
  (isValidAlias alias = false ->
   mainConfigHost args w
   = Exit 1 (Fatal (Trace errDummy [alias]) ("Invalid alias ‘" +:+ alias +:+ "’.")) w)
  /\ (isValidAlias alias = true -> isValidHostURL url = false ->
      mainConfigHost args w
      = Exit 1 (Fatal (Trace errDummy [url]) ("Invalid URL ‘" +:+ url +:+ "’.")) w)
  /\ (isValidAlias alias = true -> isValidHostURL url = true ->
      isValidAccessKey accessKey = false ->
      mainConfigHost args w
      = Exit 1 (Fatal (Trace errInvalidArgument [accessKey])
                  ("Invalid access key ‘" +:+ accessKey +:+ "’.")) w)
  /\ (isValidAlias alias = true -> isValidHostURL url = true ->
      isValidAccessKey accessKey = true -> isValidSecretKey secretKey = false ->
      mainConfigHost args w
      = Exit 1 (Fatal (Trace errInvalidArgument [secretKey])
                  ("Invalid secret key ‘" +:+ secretKey +:+ "’.")) w).
Proof.
  intros Hv Hlen alias url accessKey secretKey.
  assert (Hcount : ((length (Args.Tail args) <? 4)
                    || (5 <? length (Args.Tail args))) = false)
    by (destruct Hlen as [-> | ->]; reflexivity).
  rewrite (main_add args w Hv), checkAdd_run. cbv zeta. rewrite Hcount.
  fold alias url accessKey secretKey.
  repeat split; intros; repeat match goal with
                               | E : _ = _ |- _ => rewrite E
                               end; reflexivity.
Qed.

(** X3. A remove with one argument that is not a valid alias is refused
    before the configuration is loaded: the command ends with exit code
    1 and the message about the alias, in the world it started from.  An
    entry stored under such an alias can therefore not be removed with
    this command. *)
Theorem remove_rejects_invalid_alias (args : list string) (w : World) :
  strings.TrimSpace (Args.First args) = "remove"%string ->
  length (Args.Tail args) = 1 ->
  isValidAlias (Args.Get (Args.Tail args) 0) = false ->
  mainConfigHost args w
  = Exit 1 (Fatal (Trace errDummy [Args.Get (Args.Tail args) 0])
              ("Invalid alias ‘" +:+ Args.Get (Args.Tail args) 0 +:+ "’.")) w
  /\ forall c, config w = Some c ->
       config (world (mainConfigHost args w)) = Some c.
Proof.
  intros Hv Hlen Hbad.
  assert (Hrun : mainConfigHost args w
                 = Exit 1 (Fatal (Trace errDummy [Args.Get (Args.Tail args) 0])
                             ("Invalid alias ‘" +:+ Args.Get (Args.Tail args) 0 +:+ "’."))
                     w).
  { rewrite (main_remove args w Hv), checkRemove_run. cbv zeta.
    rewrite Hlen, Hbad. reflexivity. }
  split; [exact Hrun|]. intros c Hc. now rewrite Hrun.
Qed.

(** X4. The command returns normally exactly when the command line is
    acceptable (a verb with the right number of arguments, each passing
    its check), the configuration loads and, for add and remove, can be
    saved. *)
Theorem returns_exactly_when (args : list string) (w : World) :
  (exists w', mainConfigHost args w = Return tt w')
  <-> acceptable args
      /\ config w <> None
      /\ (strings.TrimSpace (Args.First args) <> "list"%string -> writable w = true).
Proof.
  unfold acceptable. cbv zeta.
  destruct (verb_cases (strings.TrimSpace (Args.First args)))
    as [Hv | [Hv | [Hv | Hv]]].
  - rewrite (main_add args w Hv), checkAdd_run, Hv. cbv zeta.
    destruct (Nat.ltb_spec (length (Args.Tail args)) 4) as [H4|H4]; cbn [orb].
    { split; [intros (w' & Hrun); discriminate|].
      intros ([(_ & Hlen & _) | [(Hx & _) | Hx]] & _); try discriminate. lia. }
    destruct (Nat.ltb_spec 5 (length (Args.Tail args))) as [H5|H5].
    { split; [intros (w' & Hrun); discriminate|].
      intros ([(_ & Hlen & _) | [(Hx & _) | Hx]] & _); try discriminate. lia. }
    destruct (isValidAlias (Args.Get (Args.Tail args) 0)); cbn [negb];
      [|split; [intros (w' & Hrun); discriminate|];
        intros ([(_ & _ & Hx & _) | [(Hx & _) | Hx]] & _); discriminate].
    destruct (isValidHostURL (Args.Get (Args.Tail args) 1)); cbn [negb];
      [|split; [intros (w' & Hrun); discriminate|];
        intros ([(_ & _ & _ & Hx & _) | [(Hx & _) | Hx]] & _); discriminate].
    destruct (isValidAccessKey (Args.Get (Args.Tail args) 2)); cbn [negb];
      [|split; [intros (w' & Hrun); discriminate|];
        intros ([(_ & _ & _ & _ & Hx & _) | [(Hx & _) | Hx]] & _); discriminate].
    destruct (isValidSecretKey (Args.Get (Args.Tail args) 3)); cbn [negb];
      [|split; [intros (w' & Hrun); discriminate|];
        intros ([(_ & _ & _ & _ & _ & Hx & _) | [(Hx & _) | Hx]] & _); discriminate].
    destruct (String.eqb_spec (Args.Get (Args.Tail args) 4) EmptyString) as [Hapi|Hapi];
      cbn [negb andb].
    + rewrite addHost_run. destruct (config w) as [c|].
      * destruct (writable w).
        -- split; [intros _|intros _; eexists; reflexivity].
           split; [left; repeat split; auto; lia|]. split; [discriminate|reflexivity].
        -- split; [intros (w' & Hrun); discriminate|].
           intros (_ & _ & Hw). discriminate Hw. discriminate.
      * split; [intros (w' & Hrun); discriminate|].
        intros (_ & Hc & _). congruence.
    + destruct (isValidAPI (Args.Get (Args.Tail args) 4)); cbn [negb].
      * rewrite addHost_run. destruct (config w) as [c|].
        -- destruct (writable w).
           ++ split; [intros _|intros _; eexists; reflexivity].
              split; [left; repeat split; auto; lia|]. split; [discriminate|reflexivity].
           ++ split; [intros (w' & Hrun); discriminate|].
              intros (_ & _ & Hw). discriminate Hw. discriminate.
        -- split; [intros (w' & Hrun); discriminate|].
           intros (_ & Hc & _). congruence.
      * split; [intros (w' & Hrun); discriminate|].
        intros ([(_ & _ & _ & _ & _ & _ & [Hx|Hx]) | [(Hx & _) | Hx]] & _);
          congruence || discriminate.
  - rewrite (main_remove args w Hv), checkRemove_run, Hv. cbv zeta.
    destruct (Nat.eqb_spec (length (Args.Tail args)) 1) as [H1|H1]; cbn [negb].
    2:{ split; [intros (w' & Hrun); discriminate|].
        intros ([(Hx & _) | [(_ & Hlen & _) | Hx]] & _); try discriminate. lia. }
    destruct (isValidAlias (Args.Get (Args.Tail args) 0)); cbn [negb];
      [|split; [intros (w' & Hrun); discriminate|];
        intros ([(Hx & _) | [(_ & _ & Hx) | Hx]] & _); discriminate].
    rewrite removeHost_run. destruct (config w) as [c|].
    + destruct (writable w).
      * split; [intros _|intros _; eexists; reflexivity].
        split; [right; left; auto|]. split; [discriminate|reflexivity].
      * split; [intros (w' & Hrun); discriminate|].
        intros (_ & _ & Hw). discriminate Hw. discriminate.
    + split; [intros (w' & Hrun); discriminate|].
      intros (_ & Hc & _). congruence.
  - rewrite (main_list args w Hv), listHosts_run, Hv.
    destruct (config w) as [c|].
    + split; [intros _|intros _; eexists; reflexivity].
      split; [right; right; reflexivity|]. split; [discriminate|congruence].
    + split; [intros (w' & Hrun); discriminate|].
      intros (_ & Hc & _). congruence.
  - rewrite (main_help args w Hv).
    split; [intros (w' & Hrun); discriminate|].
    intros ([(Hx & _) | [(Hx & _) | Hx]] & _); exfalso; apply Hv; rewrite Hx;
      unfold verbs; rewrite !elem_of_cons; auto.
Qed.

End CommandLineMore.

(** ** What every run of the command keeps *)

Section Invariants.
Context `{Externals}.

(** The four ways a run can go. *)
Lemma main_cases (args : list string) (w : World) :
  let tl := Args.Tail args in
  (exists r, mainConfigHost args w = Exit 1 r w)
  \/ (exists c, config w = Some c /\ writable w = true
        /\ strings.TrimSpace (Args.First args) = "add"%string
        /\ validHost (Args.Get tl 0) (hostOfArgs tl)
        /\ mainConfigHost args w
           = Return tt
               (mkWorld (Some (mkConfigV8 (Version c)
                                 (<[Args.Get tl 0 := hostOfArgs tl]> (Hosts c))))
                  true (console w ++ [addMessage (Args.Get tl 0) (hostOfArgs tl)])))
  \/ (exists c, config w = Some c /\ writable w = true
        /\ strings.TrimSpace (Args.First args) = "remove"%string
        /\ isValidAlias (Args.Get tl 0) = true
        /\ mainConfigHost args w
           = Return tt
               (mkWorld (Some (mkConfigV8 (Version c) (delete (Args.Get tl 0) (Hosts c))))
                  true (console w ++ [removeMessage (Args.Get tl 0)])))
  \/ (exists c, config w = Some c
        /\ strings.TrimSpace (Args.First args) = "list"%string
        /\ mainConfigHost args w
           = Return tt
               (mkWorld (config w) (writable w)
                  (console w ++
                   map (padAlias (maxAliasOf (map fst (rangeHosts 0 (Hosts c)))))
                     (sort.Sort byAlias_Less (hostsOf (rangeHosts 1 (Hosts c))))))).
Proof.
  cbv zeta.
  destruct (verb_cases (strings.TrimSpace (Args.First args)))
    as [Hv | [Hv | [Hv | Hv]]].
  - rewrite (main_add args w Hv), checkAdd_run. cbv zeta.
    repeat match goal with
           | |- context [if ?b then Exit _ _ _ else _] =>
             destruct b eqn:?; [left; eexists; reflexivity|]
           end.
    rewrite addHost_run.
    destruct (config w) as [c|] eqn:Hc; [|left; eexists; reflexivity].
    destruct (writable w) eqn:Hw; [|left; eexists; reflexivity].
    right; left. exists c. repeat split; auto;
      try (apply negb_false_iff; assumption).
    unfold hostOfArgs. cbn [hostConfigV8.API].
    destruct (String.eqb_spec (Args.Get (Args.Tail args) 4) EmptyString);
      [discriminate | assumption].
  - rewrite (main_remove args w Hv), checkRemove_run. cbv zeta.
    repeat match goal with
           | |- context [if ?b then Exit _ _ _ else _] =>
             destruct b eqn:?; [left; eexists; reflexivity|]
           end.
    rewrite removeHost_run.
    destruct (config w) as [c|] eqn:Hc; [|left; eexists; reflexivity].
    destruct (writable w) eqn:Hw; [|left; eexists; reflexivity].
    right; right; left. exists c. repeat split; auto.
    now apply negb_false_iff.
  - rewrite (main_list args w Hv), listHosts_run.
    destruct (config w) as [c|] eqn:Hc; [|left; eexists; reflexivity].
    right; right; right. exists c. repeat split; auto.
  - left. exists (Help "host"). now apply main_help.
Qed.



(** X7. An empty fifth argument of add is the same as none: both
    command lines pass or fail the same checks, with the same outcome in
    every world, and when they return the record stored under the alias
    has the API "S3v4". *)
Theorem empty_api_is_default (cmd alias url accessKey secretKey : string) (w : World) :
  strings.TrimSpace cmd = "add"%string ->
  mainConfigHost [cmd; alias; url; accessKey; secretKey; EmptyString] w
  = mainConfigHost [cmd; alias; url; accessKey; secretKey] w
  /\ forall w', mainConfigHost [cmd; alias; url; accessKey; secretKey] w = Return tt w' ->
       exists c', config w' = Some c'
                  /\ Hosts c' !! alias
                     = Some (hostConfigV8.mk url accessKey secretKey "S3v4").
Proof.
  intros Hv. split.
  - rewrite !main_add by exact Hv. rewrite !checkAdd_run. cbv zeta.
    cbn [Args.Tail Args.Get length Nat.leb Nat.ltb drop lookup list_lookup orb
         String.eqb negb andb].
    reflexivity.
  - intros w' Hret.
    destruct (main_cases [cmd; alias; url; accessKey; secretKey] w)
      as [(r & Hrun) | [(c & _ & _ & _ & _ & Hrun)
                       | [(c & _ & _ & Hv' & _) | (c & _ & Hv' & _)]]];
      try (cbn [Args.First Args.Get lookup list_lookup] in Hv'; congruence);
      rewrite Hrun in Hret; [discriminate|].
    inversion Hret; subst w'. eexists. split; [reflexivity|].
    cbn [Hosts Args.Tail Args.Get length Nat.leb drop lookup list_lookup].
    apply lookup_insert_eq.
Qed.

End Invariants.

Lemma add_reports_first_invalid_witness :
  mainConfigHost (H := Sample.env)
    ["add"; "s3"; "ftp://example.org"; "AKIAEXAMPLE"; "short"]%string Sample.emptyWorld
  = Exit 1 (Fatal (Trace errDummy ["ftp://example.org"%string])
              "Invalid URL ‘ftp://example.org’.") Sample.emptyWorld.
Proof.
  destruct (add_reports_first_invalid (H := Sample.env)
              ["add"; "s3"; "ftp://example.org"; "AKIAEXAMPLE"; "short"]%string
              Sample.emptyWorld) as (_ & Hurl & _).
  - vm_compute. reflexivity.
  - left. reflexivity.
  - apply Hurl; reflexivity.
Defined.

Lemma remove_rejects_invalid_alias_witness :
  mainConfigHost (H := Sample.env) ["remove"; "my photos"]%string
    (Sample.worldOf {[ "my photos"%string := Sample.s3cfg ]})
  = Exit 1 (Fatal (Trace errDummy ["my photos"%string]) "Invalid alias ‘my photos’.")
      (Sample.worldOf {[ "my photos"%string := Sample.s3cfg ]}).
Proof.
  apply (remove_rejects_invalid_alias (H := Sample.env) ["remove"; "my photos"]%string);
    vm_compute; reflexivity.
Defined.



Lemma empty_api_is_default_witness :
  mainConfigHost (H := Sample.env)
    [" add"; "s3"; "https://s3.amazonaws.com"; "AKIAEXAMPLE"; "SECRETEXAMPLE"; ""]%string
    Sample.emptyWorld
  = mainConfigHost (H := Sample.env)
      [" add"; "s3"; "https://s3.amazonaws.com"; "AKIAEXAMPLE"; "SECRETEXAMPLE"]%string
      Sample.emptyWorld.
Proof.
  apply (empty_api_is_default (H := Sample.env) " add" "s3" "https://s3.amazonaws.com"
           "AKIAEXAMPLE" "SECRETEXAMPLE" Sample.emptyWorld).
  vm_compute. reflexivity.
Defined.

(** ** add, remove and list together *)

Section Compositions.
Context `{Externals}.

#[local] Abbreviation Alias := hostMessage.Alias.

(** An acceptable add or remove on a configuration that loads and saves. *)
Lemma add_run_ok (args : list string) (w : World) (c : configV8) :
  strings.TrimSpace (Args.First args) = "add"%string ->
  length (Args.Tail args) = 4 \/ length (Args.Tail args) = 5 ->
  isValidAlias (Args.Get (Args.Tail args) 0) = true ->
  isValidHostURL (Args.Get (Args.Tail args) 1) = true ->
  isValidAccessKey (Args.Get (Args.Tail args) 2) = true ->
  isValidSecretKey (Args.Get (Args.Tail args) 3) = true ->
  Args.Get (Args.Tail args) 4 = EmptyString
  \/ isValidAPI (Args.Get (Args.Tail args) 4) = true ->
  config w = Some c -> writable w = true ->
  mainConfigHost args w
  = Return tt
      (mkWorld (Some (mkConfigV8 (Version c)
                        (<[Args.Get (Args.Tail args) 0 := hostOfArgs (Args.Tail args)]>
                           (Hosts c))))
         true
         (console w ++ [addMessage (Args.Get (Args.Tail args) 0)
                          (hostOfArgs (Args.Tail args))])).
Proof.
  intros Hv Hlen Ha Hu Hk Hs Hapi Hc Hw.
  rewrite (main_add args w Hv), checkAdd_run. cbv zeta.
  assert (Hcount : ((length (Args.Tail args) <? 4)
                    || (5 <? length (Args.Tail args))) = false)
    by (destruct Hlen as [-> | ->]; reflexivity).
  rewrite Hcount, Ha, Hu, Hk, Hs. cbn [negb].
  assert (Hok : negb (String.eqb (Args.Get (Args.Tail args) 4) EmptyString)
                && negb (isValidAPI (Args.Get (Args.Tail args) 4)) = false).
  { destruct Hapi as [-> | ->]; [reflexivity | now rewrite andb_false_r]. }
  rewrite Hok. rewrite addHost_run, Hc, Hw. reflexivity.
Qed.

Lemma remove_run_ok (args : list string) (w : World) (c : configV8) :
  strings.TrimSpace (Args.First args) = "remove"%string ->
  length (Args.Tail args) = 1 ->
  isValidAlias (Args.Get (Args.Tail args) 0) = true ->
  config w = Some c -> writable w = true ->
  mainConfigHost args w
  = Return tt
      (mkWorld (Some (mkConfigV8 (Version c)
                        (delete (Args.Get (Args.Tail args) 0) (Hosts c))))
         true (console w ++ [removeMessage (Args.Get (Args.Tail args) 0)])).
Proof.
  intros Hv Hlen Ha Hc Hw.
  rewrite (main_remove args w Hv), checkRemove_run. cbv zeta.
  rewrite Hlen, Ha. cbn [Nat.eqb negb].
  rewrite removeHost_run, Hc, Hw. reflexivity.
Qed.

Lemma hostsOf_listMessage (entries : list (string * hostConfigV8.t)) :
  hostsOf entries = map (fun kv => listMessage (fst kv) (snd kv)) entries.
Proof. reflexivity. Qed.

Lemma padAlias_listMessage (n : nat) (alias : string) (cfg : hostConfigV8.t) :
  String.length alias <= n ->
  padAlias n (listMessage alias cfg)
  = listMessage (alias +:+ fmt.spaces (n - utf8.RuneCountInString alias)) cfg.
Proof.
  intros Hle. unfold padAlias, listMessage.
  cbn [hostMessage.op hostMessage.Status hostMessage.Alias hostMessage.URL
       hostMessage.AccessKey hostMessage.SecretKey hostMessage.API].
  now rewrite fmtS_pad.
Qed.

(** X8. list only reads: whether or not the configuration loads, the
    document and its write permission are the ones list started from,
    what was on the console stays there, and whatever list adds to it is
    a list message. *)
Theorem list_only_reads (w : World) :
  config (world (listHosts w)) = config w
  /\ writable (world (listHosts w)) = writable w
  /\ exists printed,
       console (world (listHosts w)) = console w ++ printed
       /\ Forall (fun m => hostMessage.op m = "list"%string) printed.
Proof.
  rewrite listHosts_run. destruct (config w) as [c|] eqn:Hc; cbn [world config writable console].
  - split; [reflexivity|]. split; [reflexivity|]. eexists. split; [reflexivity|].
    apply Forall_map.
    assert (Hp : Permutation (sort.Sort byAlias_Less (hostsOf (rangeHosts 1 (Hosts c))))
                   (hostsOf (rangeHosts 1 (Hosts c)))) by apply Sort_perm.
    rewrite Hp. unfold hostsOf. apply Forall_map.
    apply Forall_forall. intros kv _. reflexivity.
  - split; [exact Hc|]. split; [reflexivity|]. exists [].
    split; [now rewrite app_nil_r | constructor].
Qed.

(** X9. list neither drops nor invents an entry: on a configuration
    that loads it prints as many messages as the table has aliases, none
    on an empty table, and what it prints is, up to the order, one list
    message per stored entry, with the URL, the keys and the API as
    stored and the alias followed by spaces up to [maxAlias] runes. *)
Theorem list_prints_every_entry (w : World) (c : configV8) :
  rangeLawful -> config w = Some c ->
  let maxAlias := maxAliasOf (map fst (map_to_list (Hosts c))) in
  let shown := fun kv : string * hostConfigV8.t =>
    listMessage (fst kv +:+ fmt.spaces (maxAlias - utf8.RuneCountInString (fst kv)))
      (snd kv) in
  exists printed,
    listHosts w = Return tt (mkWorld (config w) (writable w) (console w ++ printed))
    /\ Permutation printed (map shown (map_to_list (Hosts c)))
    /\ length printed = size (Hosts c)
    /\ (Hosts c = ∅ -> printed = [])
    /\ forall m, m ∈ printed
         <-> exists alias cfg, Hosts c !! alias = Some cfg /\ m = shown (alias, cfg).
Proof.
  intros Hlaw Hc maxAlias shown.
  destruct (listHosts_sorted_run w c Hlaw Hc) as (Hrun & _ & _).
  fold maxAlias in Hrun.
  set (hosts := sort.Sort byAlias_Less (hostsOf (map_to_list (Hosts c)))) in *.
  assert (Hp : Permutation hosts (hostsOf (map_to_list (Hosts c)))) by apply Sort_perm.
  assert (Hshown : map (padAlias maxAlias) (hostsOf (map_to_list (Hosts c)))
                   = map shown (map_to_list (Hosts c))).
  { rewrite hostsOf_listMessage, map_map. apply map_ext_in.
    intros (alias & cfg) Hin. cbn [fst snd]. apply padAlias_listMessage.
    unfold maxAlias. rewrite maxAliasOf_longest. apply longest_bound.
    apply list_elem_of_In in Hin.
    now apply (list_elem_of_fmap_2' _ _ (alias, cfg)). }
  assert (Hperm : Permutation (map (padAlias maxAlias) hosts)
                    (map shown (map_to_list (Hosts c)))).
  { rewrite <- Hshown. now apply Permutation_map. }
  assert (Hlen : length (map (padAlias maxAlias) hosts) = size (Hosts c)).
  { rewrite Hperm, length_map. apply length_map_to_list. }
  exists (map (padAlias maxAlias) hosts).
  split; [exact Hrun|]. split; [exact Hperm|]. split; [exact Hlen|].
  split.
  { intros Hempty. rewrite Hempty, map_size_empty in Hlen.
    now apply length_zero_iff_nil. }
  intros m. rewrite Hperm, list_elem_of_fmap. split.
  - intros ((alias & cfg) & -> & Hin). apply elem_of_map_to_list in Hin.
    now exists alias, cfg.
  - intros (alias & cfg & Hin & ->). exists (alias, cfg).
    split; [reflexivity | now apply elem_of_map_to_list].
Qed.

(** X10. Removing an alias on a configuration that loads and saves
    leaves a document without it: the alias maps to nothing, every other
    alias keeps its entry, the version is kept, and the table has one
    entry less when the alias was there. *)
Theorem remove_deletes_alias (alias : string) (w : World) (c : configV8) :
  config w = Some c -> writable w = true ->
  exists c' : configV8,
    removeHost alias w
    = Return tt (mkWorld (Some c') true (console w ++ [removeMessage alias]))
    /\ Version c' = Version c
    /\ Hosts c' !! alias = None
    /\ (forall other : string, other <> alias -> Hosts c' !! other = Hosts c !! other)
    /\ (is_Some (Hosts c !! alias) -> S (size (Hosts c')) = size (Hosts c)).
Proof.
  intros Hc Hw.
  exists (mkConfigV8 (Version c) (delete alias (Hosts c))).
  split; [now rewrite removeHost_run, Hc, Hw|]. cbn [Version Hosts].
  split; [reflexivity|].
  split; [apply lookup_delete_eq|].
  split; [intros other Hne; now apply lookup_delete_ne|].
  intros Hin. rewrite map_size_delete_Some by exact Hin.
  assert (Hpos : size (Hosts c) <> 0).
  { intros Hz. apply map_size_empty_iff in Hz. rewrite Hz in Hin.
    rewrite lookup_empty in Hin. now destruct Hin. }
  lia.
Qed.

(** X11. An add followed by the remove of the same alias: both command
    lines being acceptable, the document left is the one loaded without
    that alias, hence the document that was loaded when the alias was
    not in it; the console has the message of the add and then the one
    of the remove. *)
Theorem add_then_remove (cmdAdd cmdRemove alias : string) (rest : list string)
    (w : World) (c : configV8) :
  config w = Some c -> writable w = true ->
  strings.TrimSpace cmdAdd = "add"%string ->
  strings.TrimSpace cmdRemove = "remove"%string ->
  acceptable (cmdAdd :: alias :: rest) ->
  exists w1 w2 : World,
    mainConfigHost (cmdAdd :: alias :: rest) w = Return tt w1
    /\ mainConfigHost [cmdRemove; alias] w1 = Return tt w2
    /\ config w2 = Some (mkConfigV8 (Version c) (delete alias (Hosts c)))
    /\ (Hosts c !! alias = None -> config w2 = Some c)
    /\ console w2
       = console w ++ [addMessage alias (hostOfArgs (alias :: rest)); removeMessage alias].
Proof.
  intros Hc Hw Hadd Hremove Hacc.
  assert (Htl : Args.Tail (cmdAdd :: alias :: rest) = alias :: rest) by reflexivity.
  destruct Hacc as [(_ & Hlen & Ha & Hu & Hk & Hs & Hapi) | [(Hx & _) | Hx]];
    try (cbn [Args.First Args.Get lookup list_lookup] in Hx; congruence).
  pose proof (add_run_ok (cmdAdd :: alias :: rest) w c Hadd Hlen Ha Hu Hk Hs Hapi Hc Hw)
    as Hrun1.
  rewrite Htl in Hrun1, Ha. cbn [Args.Get lookup list_lookup] in Hrun1, Ha.
  eexists. eexists. split; [exact Hrun1|].
  split.
  { apply (remove_run_ok [cmdRemove; alias]); try reflexivity; assumption. }
  cbn [config console Version Hosts Args.Tail Args.Get length Nat.leb drop lookup
       list_lookup].
  rewrite delete_insert_eq.
  split; [reflexivity|].
  split.
  { intros Habs. rewrite delete_id by exact Habs. now destruct c. }
  now rewrite <- app_assoc.
Qed.

(** X12. Adds compose as updates of a map: of two adds under the same
    alias the later one decides the document, as if the earlier had not
    been run; two adds under different aliases leave the same document
    in either order. *)
Theorem adds_compose (a1 a2 : string) (c1 c2 : hostConfigV8.t) (w : World)
    (c : configV8) :
  config w = Some c -> writable w = true ->
  config (world (addHost a1 c2 (world (addHost a1 c1 w))))
  = config (world (addHost a1 c2 w))
  /\ (a1 <> a2 ->
      config (world (addHost a2 c2 (world (addHost a1 c1 w))))
      = config (world (addHost a1 c1 (world (addHost a2 c2 w))))).
Proof.
  intros Hc Hw. split; [|now apply (add_order_free a1 a2 c1 c2 w c)].
  rewrite (addHost_ok a1 c1 w c Hc Hw), (addHost_ok a1 c2 w c Hc Hw).
  cbn [world]. erewrite (addHost_ok a1 c2) by reflexivity.
  cbn [world config Version Hosts]. do 2 f_equal. apply insert_insert_eq.
Qed.

(** X13. After the remove of an alias, list shows no entry of it: the
    messages list prints are made from the remaining entries, one for
    each, and none from the alias removed. *)
Theorem remove_then_list (cmdRemove cmdList alias : string) (w : World) (c : configV8) :
  rangeLawful -> config w = Some c -> writable w = true ->
  strings.TrimSpace cmdRemove = "remove"%string ->
  strings.TrimSpace cmdList = "list"%string ->
  isValidAlias alias = true ->
  let remaining := delete alias (Hosts c) in
  let maxAlias := maxAliasOf (map fst (map_to_list remaining)) in
  exists (w1 w2 : World) (hosts : list hostMessage.t),
    mainConfigHost [cmdRemove; alias] w = Return tt w1
    /\ mainConfigHost [cmdList] w1 = Return tt w2
    /\ config w2 = Some (mkConfigV8 (Version c) remaining)
    /\ console w2 = console w ++ removeMessage alias :: map (padAlias maxAlias) hosts
    /\ Permutation hosts (hostsOf (map_to_list remaining))
    /\ Forall (fun h => Alias h <> alias) hosts
    /\ (forall other cfg, other <> alias -> Hosts c !! other = Some cfg ->
         listMessage other cfg ∈ hosts).
Proof.
  intros Hlaw Hc Hw Hremove Hlist Ha remaining maxAlias.
  pose proof (remove_run_ok [cmdRemove; alias] w c Hremove eq_refl Ha Hc Hw) as Hrun1.
  cbn [Args.Tail Args.Get length Nat.leb drop lookup list_lookup] in Hrun1.
  fold remaining in Hrun1.
  set (w1 := mkWorld (Some (mkConfigV8 (Version c) remaining)) true
               (console w ++ [removeMessage alias])) in *.
  destruct (listHosts_sorted_run w1 (mkConfigV8 (Version c) remaining) Hlaw eq_refl)
    as (Hrun2 & _ & _).
  cbn [Hosts] in Hrun2. fold maxAlias in Hrun2.
  set (hosts := sort.Sort byAlias_Less (hostsOf (map_to_list remaining))) in *.
  assert (Hp : Permutation hosts (hostsOf (map_to_list remaining))) by apply Sort_perm.
  exists w1, (mkWorld (config w1) (writable w1)
                (console w1 ++ map (padAlias maxAlias) hosts)), hosts.
  split; [exact Hrun1|].
  split; [now rewrite (main_list [cmdList] w1 Hlist)|].
  split; [reflexivity|].
  split; [unfold w1; cbn [console]; now rewrite <- app_assoc|].
  split; [exact Hp|].
  split.
  - rewrite Hp, hostsOf_listMessage. apply Forall_map, Forall_forall.
    intros (k & v) Hin Heq. cbn [fst snd hostMessage.Alias listMessage] in Heq.
    apply elem_of_map_to_list in Hin. subst k. unfold remaining in Hin.
    rewrite lookup_delete_eq in Hin. discriminate.
  - intros other cfg Hne Hin. rewrite Hp, hostsOf_listMessage.
    apply (list_elem_of_fmap_2' _ _ (other, cfg)); [|reflexivity].
    apply elem_of_map_to_list. unfold remaining. now rewrite lookup_delete_ne.
Qed.

End Compositions.

Lemma list_prints_every_entry_witness :
  exists printed,
    listHosts (H := Sample.envRev) (Sample.worldOf Sample.abHosts)
    = Return tt (mkWorld (Some (mkConfigV8 "8" Sample.abHosts)) true printed)
    /\ length printed = size Sample.abHosts.
Proof.
  destruct (list_prints_every_entry (H := Sample.envRev) (Sample.worldOf Sample.abHosts)
              (mkConfigV8 "8" Sample.abHosts) sample_rev_lawful eq_refl)
    as (printed & Hrun & _ & Hlen & _).
  exists printed. split; [exact Hrun | exact Hlen].
Defined.

Lemma remove_deletes_alias_witness :
  exists c' : configV8,
    removeHost (H := Sample.env) "a" (Sample.worldOf Sample.abHosts)
    = Return tt (mkWorld (Some c') true [removeMessage "a"])
    /\ Hosts c' !! "a"%string = None
    /\ Hosts c' !! "bb"%string = Some Sample.s3cfg.
Proof.
  destruct (remove_deletes_alias (H := Sample.env) "a" (Sample.worldOf Sample.abHosts)
              (mkConfigV8 "8" Sample.abHosts) eq_refl eq_refl)
    as (c' & Hrun & _ & Hgone & Hother & _).
  exists c'. split; [exact Hrun|]. split; [exact Hgone|].
  rewrite Hother by discriminate. vm_compute. reflexivity.
Defined.

Lemma add_then_remove_witness :
  exists w1 w2 : World,
    mainConfigHost (H := Sample.env)
      ["add"; "s3"; "https://s3.amazonaws.com"; "AKIAEXAMPLE"; "SECRETEXAMPLE"]%string
      (Sample.worldOf Sample.photosHosts)
    = Return tt w1
    /\ mainConfigHost (H := Sample.env) ["remove"; "s3"]%string w1 = Return tt w2
    /\ config w2 = Some (mkConfigV8 "8" Sample.photosHosts).
Proof.
  destruct (add_then_remove (H := Sample.env) "add" "remove" "s3"
              ["https://s3.amazonaws.com"; "AKIAEXAMPLE"; "SECRETEXAMPLE"]%string
              (Sample.worldOf Sample.photosHosts) (mkConfigV8 "8" Sample.photosHosts)
              eq_refl eq_refl eq_refl eq_refl)
    as (w1 & w2 & Hrun1 & Hrun2 & _ & Hsame & _).
  - left. vm_compute. repeat split; auto.
  - exists w1, w2. split; [exact Hrun1|]. split; [exact Hrun2|].
    apply Hsame. vm_compute. reflexivity.
Defined.

Lemma adds_compose_witness :
  config (world (addHost (H := Sample.env) "s3" Sample.s3cfg
                   (world (addHost (H := Sample.env) "s3"
                             (hostConfigV8.mk "http://localhost:9000" "minio" "minio123"
                                "S3v2")
                             Sample.emptyWorld))))
  = config (world (addHost (H := Sample.env) "s3" Sample.s3cfg Sample.emptyWorld)).
Proof.
  apply (adds_compose (H := Sample.env) "s3" "s3" _ Sample.s3cfg Sample.emptyWorld
           (mkConfigV8 "8" ∅)); reflexivity.
Defined.

Lemma remove_then_list_witness :
  exists (w1 w2 : World) (hosts : list hostMessage.t),
    mainConfigHost (H := Sample.env) ["remove"; "a"]%string (Sample.worldOf Sample.abHosts)
    = Return tt w1
    /\ mainConfigHost (H := Sample.env) ["list"%string] w1 = Return tt w2
    /\ console w2 = removeMessage "a" :: map (padAlias 2) hosts
    /\ Forall (fun h => hostMessage.Alias h <> "a"%string) hosts.
Proof.
  destruct (remove_then_list (H := Sample.env) "remove" "list" "a"
              (Sample.worldOf Sample.abHosts) (mkConfigV8 "8" Sample.abHosts)
              sample_lawful eq_refl eq_refl eq_refl eq_refl eq_refl)
    as (w1 & w2 & hosts & Hrun1 & Hrun2 & _ & Hcons & _ & Hnone & _).
  exists w1, w2, hosts. split; [exact Hrun1|]. split; [exact Hrun2|].
  split; [exact Hcons | exact Hnone].
Defined.

(** ** [byAlias] under package sort *)

Section Interface.

#[local] Abbreviation Alias := hostMessage.Alias.

Lemma Less_at (l1 l2 : list hostMessage.t) (x y : hostMessage.t) :
  byAlias.Less (l1 ++ y :: x :: l2) (S (length l1)) (length l1)
  = Some (byAlias_Less x y).
Proof.
  unfold byAlias.Less.
  rewrite (list_lookup_middle l1 (x :: l2) y (length l1)) by reflexivity.
  rewrite (lookup_app_r l1) by lia.
  replace (S (length l1) - length l1) with 1 by lia. reflexivity.
Qed.

Lemma Swap_at (l1 l2 : list hostMessage.t) (x y : hostMessage.t) :
  byAlias.Swap (l1 ++ y :: x :: l2) (S (length l1)) (length l1)
  = Some (l1 ++ x :: y :: l2).
Proof.
  unfold byAlias.Swap.
  rewrite (list_lookup_middle l1 (x :: l2) y (length l1)) by reflexivity.
  rewrite (lookup_app_r l1) by lia.
  replace (S (length l1) - length l1) with 1 by lia. cbn [lookup list_lookup].
  f_equal.
  rewrite (insert_app_r_alt l1) by lia.
  replace (S (length l1) - length l1) with 1 by lia. cbn [insert list_insert].
  rewrite (insert_app_r_alt l1) by lia.
  rewrite Nat.sub_diag. reflexivity.
Qed.

(** The inner loop moves the element at [j] down to its place: on the
    slice, what [sort.sink] does on the list of the elements before it. *)
Lemma inner_sink (p rest : list hostMessage.t) (x : hostMessage.t) :
  insertionSort_inner 0 (length p) (rev p ++ x :: rest)
  = Some (rev (sort.sink byAlias_Less x p) ++ rest).
Proof.
  revert rest. induction p as [|y p IH]; intros rest; [reflexivity|].
  cbn [length insertionSort_inner Nat.ltb Nat.leb rev sort.sink].
  rewrite <- (length_rev p), <- app_assoc. cbn [app].
  rewrite Less_at. destruct (byAlias_Less x y) eqn:Hxy.
  - rewrite Swap_at. rewrite length_rev, IH.
    cbn [rev]. now rewrite <- app_assoc.
  - cbn [rev]. now rewrite <- !app_assoc.
Qed.

Lemma length_sink (x : hostMessage.t) (p : list hostMessage.t) :
  length (sort.sink byAlias_Less x p) = S (length p).
Proof. now rewrite (Permutation_length (sink_perm x p)). Qed.

Lemma outer_fold (todo p : list hostMessage.t) :
  insertionSort_outer (length todo) 0 (length p) (rev p ++ todo)
  = Some (rev (fold_left (fun p x => sort.sink byAlias_Less x p) todo p)).
Proof.
  revert p. induction todo as [|x todo IH]; intros p.
  - cbn [length insertionSort_outer fold_left]. now rewrite app_nil_r.
  - cbn [length insertionSort_outer fold_left].
    rewrite inner_sink, <- length_sink with (x := x). apply IH.
Qed.

(** X14. [byAlias.Less] is the strict order package sort asks for,
    decided by the aliases alone: no message is less than itself or than
    a message of the same alias, the relation is transitive, and of two
    messages with different aliases exactly one is less than the other.
    By index it compares the elements at the two positions, and it has a
    result exactly when both positions are in the slice. *)
Theorem less_is_strict_order :
  (forall a b, Alias a = Alias b -> byAlias_Less a b = false)
  /\ (forall a b, byAlias_Less a b = true -> byAlias_Less b a = false)
  /\ (forall a b c,
        byAlias_Less a b = true -> byAlias_Less b c = true -> byAlias_Less a c = true)
  /\ (forall a b, Alias a <> Alias b ->
        byAlias_Less a b = true \/ byAlias_Less b a = true)
  /\ (forall d i j x y, d !! i = Some x -> d !! j = Some y ->
        byAlias.Less d i j = Some (byAlias_Less x y))
  /\ (forall d i j,
        byAlias.Less d i j = None <-> ~ (i < byAlias.Len d /\ j < byAlias.Len d)).
Proof.
  split; [|split; [|split; [|split; [|split]]]].
  - intros a b Heq. unfold byAlias_Less. rewrite Heq.
    apply not_true_is_false, str_lt_irrefl.
  - intros a b Hab. unfold byAlias_Less in *. apply ltb_false_iff. now right.
  - intros a b c Hab Hbc. unfold byAlias_Less in *.
    exact (str_lt_trans _ _ _ Hab Hbc).
  - intros a b Hne. unfold byAlias_Less.
    destruct (str_lt_trichotomy (Alias a) (Alias b)) as [Hlt | [Heq | Hgt]];
      [now left | contradiction | now right].
  - intros d i j x y Hi Hj. unfold byAlias.Less. now rewrite Hi, Hj.
  - intros d i j. unfold byAlias.Less, byAlias.Len.
    destruct (d !! i) as [x|] eqn:Hi; [destruct (d !! j) as [y|] eqn:Hj|].
    + apply lookup_lt_Some in Hi, Hj. split; [discriminate | intros Hn; lia].
    + apply lookup_ge_None in Hj. split; [intros _; lia | reflexivity].
    + apply lookup_ge_None in Hi. split; [intros _; lia | reflexivity].
Qed.

(** X15. [byAlias.Swap] panics exactly when an index is outside the
    slice.  Otherwise it exchanges the elements at the two positions and
    leaves every other position alone: the slice keeps its length and
    its elements, and swapping the same positions again restores it. *)
Theorem swap_exchanges (d : list hostMessage.t) (i j : nat) :
  (byAlias.Swap d i j = None <-> ~ (i < byAlias.Len d /\ j < byAlias.Len d))
  /\ (i < byAlias.Len d -> j < byAlias.Len d ->
      exists d', byAlias.Swap d i j = Some d'
        /\ byAlias.Len d' = byAlias.Len d
        /\ d' !! i = d !! j
        /\ d' !! j = d !! i
        /\ (forall k, k <> i -> k <> j -> d' !! k = d !! k)
        /\ Permutation d' d
        /\ byAlias.Swap d' i j = Some d).
Proof.
  unfold byAlias.Swap, byAlias.Len. split.
  - destruct (d !! i) as [x|] eqn:Hi; [destruct (d !! j) as [y|] eqn:Hj|].
    + apply lookup_lt_Some in Hi, Hj. split; [discriminate | intros Hn; lia].
    + apply lookup_ge_None in Hj. split; [intros _; lia | reflexivity].
    + apply lookup_ge_None in Hi. split; [intros _; lia | reflexivity].
  - intros Hi Hj.
    destruct (lookup_lt_is_Some_2 d i Hi) as [x Hx].
    destruct (lookup_lt_is_Some_2 d j Hj) as [y Hy].
    rewrite Hx, Hy. eexists. split; [reflexivity|].
    assert (Hi' : <[j:=x]> (<[i:=y]> d) !! i = Some y).
    { destruct (decide (i = j)) as [->|Hne].
      - rewrite list_lookup_insert_eq by (rewrite length_insert; lia). congruence.
      - rewrite list_lookup_insert_ne by congruence.
        now rewrite list_lookup_insert_eq. }
    assert (Hj' : <[j:=x]> (<[i:=y]> d) !! j = Some x).
    { rewrite list_lookup_insert_eq by (rewrite length_insert; lia). reflexivity. }
    split; [now rewrite !length_insert|].
    split; [congruence|]. split; [congruence|].
    split.
    { intros k Hki Hkj. now rewrite !list_lookup_insert_ne by congruence. }
    split; [now apply Permutation_insert_swap|].
    rewrite Hi', Hj'. f_equal.
    apply list_eq. intros k.
    destruct (decide (k = j)) as [->|Hkj].
    { rewrite list_lookup_insert_eq by (rewrite !length_insert; lia). now symmetry. }
    rewrite list_lookup_insert_ne by congruence.
    destruct (decide (k = i)) as [->|Hki].
    { rewrite list_lookup_insert_eq by (rewrite !length_insert; lia). now symmetry. }
    now rewrite !list_lookup_insert_ne by congruence.
Qed.

(** X16. The insertion sort of package sort, run on a whole slice
    through [Len], [Less] and [Swap], never indexes out of range, and
    the slice it leaves is the one the list version [sort.Sort] computes:
    the same messages in ascending order of alias. *)
Theorem insertionSort_by_interface (d : list hostMessage.t) :
  exists out,
    insertionSort d 0 (byAlias.Len d) = Some out
    /\ out = sort.Sort byAlias_Less d
    /\ Permutation out d
    /\ StronglySorted alias_le out.
Proof.
  exists (sort.Sort byAlias_Less d).
  split; [|split; [reflexivity|split; [apply Sort_perm | apply Sort_sorted]]].
  unfold insertionSort, byAlias.Len, sort.Sort.
  destruct d as [|x d]; [reflexivity|].
  cbn [length Nat.add Nat.sub fold_left sort.sink]. rewrite Nat.sub_0_r.
  exact (outer_fold d [x]).
Qed.

End Interface.

(** ** The columns of a list line *)

Section Columns.








Context `{Externals}.


End Columns.



(** ** The console and the store *)

Section ConsoleAndStore.
Context `{Externals}.

(** X18. Whatever the arguments, a run only adds to the console, and
    what it adds are messages of the operation named by the verb: one
    message for an add or a remove that returns, carrying the alias
    given (and for add the record stored), nothing for a run that
    exits. *)
Theorem console_grows_by_verb (args : list string) (w : World) :
  let verb := strings.TrimSpace (Args.First args) in
  let alias := Args.Get (Args.Tail args) 0 in
  exists printed,
    console (world (mainConfigHost args w)) = console w ++ printed
    /\ Forall (fun m => hostMessage.op m = verb) printed
    /\ ((forall w', mainConfigHost args w <> Return tt w') -> printed = [])
    /\ (verb = "add"%string -> (exists w', mainConfigHost args w = Return tt w') ->
        printed = [addMessage alias (hostOfArgs (Args.Tail args))])
    /\ (verb = "remove"%string -> (exists w', mainConfigHost args w = Return tt w') ->
        printed = [removeMessage alias]).
Proof.
  cbv zeta.
  destruct (main_cases args w)
    as [(r & Hrun) | [(c & Hc & Hw & Hv & _ & Hrun)
                     | [(c & Hc & Hw & Hv & _ & Hrun) | (c & Hc & Hv & Hrun)]]];
    rewrite Hrun; cbn [world console].
  - exists []. split; [now rewrite app_nil_r|]. split; [constructor|].
    split; [reflexivity|]. split; intros _ (w' & Hret); discriminate.
  - eexists. split; [reflexivity|].
    split; [constructor; [now rewrite Hv | constructor]|].
    split; [intros Hno; now destruct (Hno _ eq_refl)|].
    split; [reflexivity | intros Hv'; congruence].
  - eexists. split; [reflexivity|].
    split; [constructor; [now rewrite Hv | constructor]|].
    split; [intros Hno; now destruct (Hno _ eq_refl)|].
    split; [intros Hv'; congruence | reflexivity].
  - eexists. split; [reflexivity|].
    split.
    { apply Forall_map.
      assert (Hp : Permutation (sort.Sort byAlias_Less (hostsOf (rangeHosts 1 (Hosts c))))
                     (hostsOf (rangeHosts 1 (Hosts c)))) by apply Sort_perm.
      rewrite Hp. unfold hostsOf. apply Forall_map, Forall_forall.
      intros kv _. now rewrite Hv. }
    split; [intros Hno; now destruct (Hno _ eq_refl)|].
    split; intros Hv'; congruence.
Qed.


End ConsoleAndStore.

(** ** The text of the add and remove messages *)

Section SuccessText.
Context `{Externals}.

(** X20. The text of an add or remove message is made from the
    operation and the alias alone: two such messages with the same
    operation and alias have the same text whatever their URL, keys, API
    and status are, so the text of an add never shows the keys it
    stored.  A message of any other operation than add, remove and list
    has the empty text. *)
Theorem success_text_by_alias (h h' : hostMessage.t) :
  (hostMessage.op h = "add"%string \/ hostMessage.op h = "remove"%string ->
   hostMessage.op h' = hostMessage.op h ->
   hostMessage.Alias h' = hostMessage.Alias h ->
   hostMessage.String h' = hostMessage.String h
   /\ exists done : string,
        (done = "Added"%string \/ done = "Removed"%string)
        /\ hostMessage.String h
           = Colorize "HostMessage"
               (done +:+ " ‘" +:+ hostMessage.Alias h +:+ "’ successfully."))
  /\ (hostMessage.op h ∉ verbs -> hostMessage.String h = EmptyString).
Proof.
  split.
  - intros Hop Hop' Halias. unfold hostMessage.String.
    rewrite Hop', Halias.
    destruct Hop as [-> | ->]; cbn [String.eqb Ascii.eqb Bool.eqb];
      (split; [reflexivity|]).
    + exists "Added"%string. split; [now left | reflexivity].
    + exists "Removed"%string. split; [now right | reflexivity].
  - intros Hop. unfold hostMessage.String.
    destruct (String.eqb_spec (hostMessage.op h) "list") as [E|_];
      [exfalso; apply Hop; rewrite E; unfold verbs; rewrite !elem_of_cons; auto|].
    destruct (String.eqb_spec (hostMessage.op h) "remove") as [E|_];
      [exfalso; apply Hop; rewrite E; unfold verbs; rewrite !elem_of_cons; auto|].
    destruct (String.eqb_spec (hostMessage.op h) "add") as [E|_];
      [exfalso; apply Hop; rewrite E; unfold verbs; rewrite !elem_of_cons; auto|].
    reflexivity.
Qed.

End SuccessText.
